(** * things3_server.py: script construction, process invocation, response
      parsing and tool dispatch of the Things 3 MCP server

    The development follows [src/things3_server.py].  Python [str] values are
    modelled as [string] (the UTF-8 bytes of the text), Python exceptions as
    values of [exn] carried by the [result] monad, the external [osascript]
    process as a function from the argument vector to what [subprocess.run]
    observes, and the AppleScript programs that the controller embeds as
    text are, where a property is about what they do, also transcribed
    statement by statement over a small model of the Things application. *)

From Stdlib Require Import String Ascii List ZArith Lia Bool DecimalString.
Import ListNotations.
Open Scope string_scope.

(* ================================================================= *)
(** ** Python string primitives *)

Module Py.

(** One-character strings the model needs by code: the double quote (34),
    the line feed (10), the backslash (92) and the apostrophe (39). *)
Definition chr (n : nat) : string := String (ascii_of_nat n) EmptyString.
Definition dq : string := chr 34.
Definition nl : string := chr 10.
Definition bslash : string := chr 92.
Definition apos : string := chr 39.

(** Text given by its bytes (used for the non-ASCII bytes of the file). *)
Definition bytes (codes : list nat) : string :=
  string_of_list_ascii (map ascii_of_nat codes).

(** [sep.join(l)]. *)
Definition join (sep : string) (l : list string) : string := String.concat sep l.

(** [sub in s]. *)
Fixpoint contains (sub s : string) : bool :=
  prefix sub s ||
  match s with
  | EmptyString => false
  | String _ s' => contains sub s'
  end.

(** [c in s] for one character. *)
Fixpoint has_char (c : ascii) (s : string) : bool :=
  match s with
  | EmptyString => false
  | String d s' => Ascii.eqb d c || has_char c s'
  end.

(** [s.split(sep)] for a non-empty [sep]: leftmost, non-overlapping
    occurrences.  [skip] counts the characters of a separator just matched
    that are still to be passed over. *)
Fixpoint split_from (sep : string) (skip : nat) (s : string) : list string :=
  match s with
  | EmptyString => [EmptyString]
  | String c s' =>
      match skip with
      | S k => split_from sep k s'
      | O =>
          if prefix sep s
          then EmptyString :: split_from sep (String.length sep - 1) s'
          else match split_from sep 0 s' with
               | field :: fields => String c field :: fields
               | [] => [String c EmptyString]
               end
      end
  end.

Definition split (sep s : string) : list string := split_from sep 0 s.

(** [s.replace(old, new)] for a non-empty [old]; Python documents it as
    [new.join(s.split(old))]. *)
Definition replace (old new s : string) : string := join new (split old s).

(** The white space of [str.isspace], which [str.strip] removes, each
    character as its UTF-8 bytes: U+0009 to U+000D, U+001C to U+001F,
    U+0020, U+0085, U+00A0, U+1680, U+2000 to U+200A, U+2028, U+2029,
    U+202F, U+205F and U+3000. *)
Definition whitespace : list string :=
  map bytes
    [ [9]; [10]; [11]; [12]; [13]; [28]; [29]; [30]; [31]; [32];
      [194; 133]; [194; 160];
      [225; 154; 128];
      [226; 128; 128]; [226; 128; 129]; [226; 128; 130]; [226; 128; 131];
      [226; 128; 132]; [226; 128; 133]; [226; 128; 134]; [226; 128; 135];
      [226; 128; 136]; [226; 128; 137]; [226; 128; 138];
      [226; 128; 168]; [226; 128; 169]; [226; 128; 175];
      [226; 129; 159];
      [227; 128; 128] ].

(** Whether a text is one white-space character. *)
Definition is_space (s : string) : bool := existsb (String.eqb s) whitespace.

(** [s] without its prefix [w], when it begins with [w]. *)
Fixpoint after (w s : string) : option string :=
  match w, s with
  | EmptyString, _ => Some s
  | String a w', String b s' => if Ascii.eqb a b then after w' s' else None
  | String _ _, EmptyString => None
  end.

(** [s] without its first character, when that is one of [spaces]. *)
Fixpoint after_space (spaces : list string) (s : string) : option string :=
  match spaces with
  | [] => None
  | w :: spaces' =>
      match after w s with
      | Some rest => Some rest
      | None => after_space spaces' s
      end
  end.

(** [s.lstrip()]: leading white space is removed one character at a
    time; [n] bounds the number of characters to remove, and the length
    of the text is enough. *)
Fixpoint lstrip_from (n : nat) (s : string) : string :=
  match n with
  | O => s
  | S n' =>
      match after_space whitespace s with
      | Some rest => lstrip_from n' rest
      | None => s
      end
  end.

Definition lstrip (s : string) : string := lstrip_from (String.length s) s.

(** [s.rstrip()], from the right: once the trailing white space of the
    rest is removed, a character that is left alone with what remains of
    the rest and forms one white-space character with it goes too. *)
Fixpoint rstrip (s : string) : string :=
  match s with
  | EmptyString => EmptyString
  | String c s' =>
      let r := String c (rstrip s') in
      if is_space r then EmptyString else r
  end.

(** [s.strip()]. *)
Definition strip (s : string) : string := rstrip (lstrip s).

(** [s.lower()].  Only A..Z are mapped.  Outside ASCII Python lowers more
    characters, but the only one whose lower case is an ASCII letter is the
    Kelvin sign (to k), and no key of [list_mapping] has a k in it, so the
    lookup that uses [lower] is decided by the ASCII letters alone. *)
Definition lower_char (c : ascii) : ascii :=
  let n := nat_of_ascii c in
  if ((65 <=? n) && (n <=? 90))%nat then ascii_of_nat (n + 32) else c.

Fixpoint lower (s : string) : string :=
  match s with
  | EmptyString => EmptyString
  | String c s' => String (lower_char c) (lower s')
  end.

(** [str(n)] for an [int]. *)
Definition str_int (z : Z) : string := NilEmpty.string_of_int (Z.to_int z).
Definition str_nat (n : nat) : string := NilEmpty.string_of_uint (Nat.to_uint n).

(** A JSON number as Python holds it: an [int] or a [float].  The program
    does one thing with such a number: it formats it into a script
    ([f"{limit}"], the text of [str]).  A float is therefore held as the
    decimal that [repr] prints for it (the signed digits, the digits after
    the point and, in the exponent form, the signed exponent), or it is
    one of the floats without digits. *)
Inductive number : Type :=
| Int (z : Z)
| Float (d : Decimal.decimal)
| Infinity (negative : bool)
| NaN.

Definition str_exponent (e : Decimal.int) : string :=
  match e with
  | Decimal.Pos u => "+" ++ NilEmpty.string_of_uint u
  | Decimal.Neg u => "-" ++ NilEmpty.string_of_uint u
  end.

Definition str_float (d : Decimal.decimal) : string :=
  match d with
  | Decimal.Decimal i f => NilEmpty.string_of_int i ++ "." ++ NilEmpty.string_of_uint f
  | Decimal.DecimalExp i Decimal.Nil e => NilEmpty.string_of_int i ++ "e" ++ str_exponent e
  | Decimal.DecimalExp i f e =>
      NilEmpty.string_of_int i ++ "." ++ NilEmpty.string_of_uint f ++ "e" ++ str_exponent e
  end.

(** [str(n)] for a number. *)
Definition str_number (n : number) : string :=
  match n with
  | Int z => str_int z
  | Float d => str_float d
  | Infinity false => "inf"
  | Infinity true => "-inf"
  | NaN => "nan"
  end.

(** Truth value of an optional string ([if notes:]): the value when it is
    neither [None] nor empty. *)
Definition truthy (o : option string) : option string :=
  match o with
  | Some ((String _ _) as s) => Some s
  | _ => None
  end.

(** Truth value of an optional list ([if tags:]). *)
Definition truthy_list {A} (o : option (list A)) : option (list A) :=
  match o with
  | Some ((_ :: _) as l) => Some l
  | _ => None
  end.

(** [parts.extend(more)]; [parts.append(x)] is [extend parts [x]]. *)
Definition extend {A} (parts more : list A) : list A := List.app parts more.

(** [parts[-1] += s]. *)
Fixpoint iadd_last (parts : list string) (s : string) : list string :=
  match parts with
  | [] => []
  | [p] => [p ++ s]
  | p :: ps => p :: iadd_last ps s
  end.

(** Exceptions the program raises or catches, with [str(e)].  The text of
    [TimeoutExpired] is never rendered: [execute_applescript] catches that
    exception by its class and raises another in its place. *)
Inductive exn : Type :=
| TimeoutExpired                (* subprocess.TimeoutExpired *)
| OSError (msg : string)        (* any other failure of subprocess.run *)
| Exception (msg : string)
| KeyError (key : string)
| IndexError
| ValueError (msg : string).

(** [type(e).__name__]. *)
Definition class_name (e : exn) : string :=
  match e with
  | TimeoutExpired => "TimeoutExpired"
  | OSError _ => "OSError"
  | Exception _ => "Exception"
  | KeyError _ => "KeyError"
  | IndexError => "IndexError"
  | ValueError _ => "ValueError"
  end.

Definition str_exn (e : exn) : string :=
  match e with
  | TimeoutExpired => "Command timed out"
  | OSError msg => msg
  | Exception msg => msg
  | KeyError key => apos ++ key ++ apos
  | IndexError => "list index out of range"
  | ValueError msg => msg
  end.

Inductive result (A : Type) : Type :=
| Ok (a : A)
| Raise (e : exn).
Arguments Ok {A} a.
Arguments Raise {A} e.

Definition bind {A B} (r : result A) (k : A -> result B) : result B :=
  match r with
  | Ok a => k a
  | Raise e => Raise e
  end.

(** [l[i]]. *)
Definition getitem (l : list string) (i : nat) : result string :=
  match nth_error l i with
  | Some x => Ok x
  | None => Raise IndexError
  end.

End Py.

Import Py.

Notation "x <- r ;; k" := (bind r (fun x => k))
  (at level 61, r at next level, right associativity).

(* ================================================================= *)
(** ** Things3Controller: the embedded scripts as text *)

(** Non-ASCII text of the file, byte for byte as it is stored. *)
Definition continuation_mark : string := bytes [195; 130; 194; 172].
Definition ge_sign : string := bytes [195; 162; 226; 128; 176; 194; 165].
Definition bullet : string := bytes [195; 162; 226; 130; 172; 194; 162].
Definition today_icon : string :=
  bytes [195; 176; 197; 184; 226; 128; 156; 226; 128; 166].
Definition upcoming_icon : string := bytes [195; 162; 194; 176].
Definition projects_icon : string := bytes [195; 176; 197; 184; 226; 128; 156].

(** A triple-quoted block: its lines joined by line feeds. *)
Definition block (lines : list string) : string := join nl lines.

(** [add_task]: the script it builds. *)
Definition add_task_script (title : string) (notes due_date area project : option string)
    (tags : option (list string)) : string :=
  let script_parts :=
    [ "tell application " ++ dq ++ "Things3" ++ dq;
      "    set newToDo to make new to do with properties {name:" ++ dq ++ title ++ dq ] in
  let script_parts :=
    match truthy notes with
    | Some notes => iadd_last script_parts (", notes:" ++ dq ++ notes ++ dq)
    | None => script_parts
    end in
  let script_parts :=
    match truthy due_date with
    | Some due_date => iadd_last script_parts (", due date:date(" ++ dq ++ due_date ++ dq ++ ")")
    | None => script_parts
    end in
  let script_parts :=
    match truthy area with
    | Some area => iadd_last script_parts (", area:" ++ dq ++ area ++ dq)
    | None => script_parts
    end in
  let script_parts :=
    match truthy project with
    | Some project => iadd_last script_parts (", project:" ++ dq ++ project ++ dq)
    | None => script_parts
    end in
  let script_parts := iadd_last script_parts "}" in
  let script_parts :=
    match truthy_list tags with
    | Some tags =>
        extend script_parts
        [ "    repeat with tagName in {" ++ dq ++ join (dq ++ ", " ++ dq) tags ++ dq ++ "}";
          "        set tag of newToDo to tagName";
          "    end repeat" ]
    | None => script_parts
    end in
  let script_parts := extend script_parts [ "    return id of newToDo"; "end tell" ] in
  join nl script_parts.

(** [list_tasks]: the dictionary of list names and the lookup with its
    default. *)
Definition list_mapping : list (string * string) :=
  [ ("today", "list " ++ dq ++ "Today" ++ dq);
    ("upcoming", "list " ++ dq ++ "Upcoming" ++ dq);
    ("anytime", "list " ++ dq ++ "Anytime" ++ dq);
    ("someday", "list " ++ dq ++ "Someday" ++ dq);
    ("inbox", "list " ++ dq ++ "Inbox" ++ dq);
    ("completed", "list " ++ dq ++ "Logbook" ++ dq) ].

(** [d.get(key, default)]. *)
Fixpoint dict_get (d : list (string * string)) (key default : string) : string :=
  match d with
  | [] => default
  | (k, v) :: d' => if String.eqb k key then v else dict_get d' key default
  end.

Definition things_list (list_name : string) : string :=
  dict_get list_mapping (lower list_name) ("list " ++ dq ++ "Today" ++ dq).

Definition sep3 : string := dq ++ "|||" ++ dq.

Definition list_tasks_script (list_name : string) (limit : number) : string :=
  block
    [ "";
      "        tell application " ++ dq ++ "Things3" ++ dq;
      "            set taskList to {}";
      "            set todoList to to dos of " ++ things_list list_name;
      "            repeat with i from 1 to (count of todoList)";
      "                if i > " ++ str_number limit ++ " then exit repeat";
      "                set thisToDo to item i of todoList";
      "                set taskInfo to (name of thisToDo) & " ++ sep3 ++ " & (id of thisToDo) & "
        ++ sep3 ++ " & " ++ continuation_mark;
      "                    (notes of thisToDo) & " ++ sep3 ++ " & (due date of thisToDo) & "
        ++ sep3 ++ " & " ++ continuation_mark;
      "                    (creation date of thisToDo) & " ++ sep3 ++ " & (status of thisToDo)";
      "                set end of taskList to taskInfo";
      "            end repeat";
      "            return taskList as string";
      "        end tell";
      "        " ].

Definition complete_task_script (task_identifier : string) : string :=
  block
    [ "";
      "        tell application " ++ dq ++ "Things3" ++ dq;
      "            try";
      "                set completedToDo to to do id " ++ dq ++ task_identifier ++ dq;
      "                set status of completedToDo to completed";
      "                return " ++ dq ++ "Task completed successfully (found by ID)" ++ dq;
      "            on error";
      "                try";
      "                    set completedToDo to to do " ++ dq ++ task_identifier ++ dq;
      "                    set status of completedToDo to completed";
      "                    return " ++ dq ++ "Task completed successfully (found by title)" ++ dq;
      "                on error";
      "                    return " ++ dq ++ "Task not found: " ++ task_identifier ++ dq;
      "                end try";
      "            end try";
      "        end tell";
      "        " ].

Definition search_tasks_script (query : string) (limit : number) : string :=
  block
    [ "";
      "        tell application " ++ dq ++ "Things3" ++ dq;
      "            set searchResults to {}";
      "            set allToDos to to dos";
      "            repeat with thisToDo in allToDos";
      "                if (name of thisToDo) contains " ++ dq ++ query ++ dq
        ++ " or (notes of thisToDo) contains " ++ dq ++ query ++ dq ++ " then";
      "                    set taskInfo to (name of thisToDo) & " ++ sep3 ++ " & (id of thisToDo) & "
        ++ sep3 ++ " & (status of thisToDo)";
      "                    set end of searchResults to taskInfo";
      "                    if (count of searchResults) " ++ ge_sign ++ " " ++ str_number limit
        ++ " then exit repeat";
      "                end if";
      "            end repeat";
      "            return searchResults as string";
      "        end tell";
      "        " ].

Definition status_filter (status : string) : string :=
  if String.eqb status "open" then "whose status is open"
  else if String.eqb status "completed" then "whose status is completed"
  else "".

Definition list_projects_script (status : string) : string :=
  block
    [ "";
      "        tell application " ++ dq ++ "Things3" ++ dq;
      "            set projectList to {}";
      "            set allProjects to projects " ++ status_filter status;
      "            repeat with thisProject in allProjects";
      "                set projectInfo to (name of thisProject) & " ++ sep3
        ++ " & (id of thisProject) & " ++ sep3 ++ " & (status of thisProject)";
      "                set end of projectList to projectInfo";
      "            end repeat";
      "            return projectList as string";
      "        end tell";
      "        " ].

Definition add_project_script (title : string) (notes area : option string) (when : string)
    : string :=
  let script_parts :=
    [ "tell application " ++ dq ++ "Things3" ++ dq;
      "    set newProject to make new project with properties {name:" ++ dq ++ title ++ dq ] in
  let script_parts :=
    match truthy notes with
    | Some notes => iadd_last script_parts (", notes:" ++ dq ++ notes ++ dq)
    | None => script_parts
    end in
  let script_parts :=
    match truthy area with
    | Some area => iadd_last script_parts (", area:" ++ dq ++ area ++ dq)
    | None => script_parts
    end in
  let script_parts := iadd_last script_parts "}" in
  let script_parts :=
    if String.eqb when "today"
    then extend script_parts [ "    set start date of newProject to current date" ]
    else script_parts in
  let script_parts := extend script_parts [ "    return id of newProject"; "end tell" ] in
  join nl script_parts.

Definition get_daily_overview_script : string :=
  let due_lines (indent : string) :=
    [ indent ++ "    if (due date of thisToDo) is not missing value then";
      indent ++ "        set overview to overview & " ++ dq ++ " (Due: " ++ dq
        ++ " & (due date of thisToDo) & " ++ dq ++ ")" ++ dq;
      indent ++ "    end if" ] in
  let i12 := "            " in
  block (List.concat
    [[ "";
       "        tell application " ++ dq ++ "Things3" ++ dq;
       i12 ++ "set overview to " ++ dq ++ dq;
       i12;
       i12 ++ "-- Today's tasks";
       i12 ++ "set todayTasks to to dos of list " ++ dq ++ "Today" ++ dq;
       i12 ++ "set overview to overview & " ++ dq ++ today_icon ++ " TODAY (" ++ dq
         ++ " & (count of todayTasks) & " ++ dq ++ " tasks):" ++ dq ++ " & return";
       i12 ++ "repeat with thisToDo in todayTasks";
       i12 ++ "    set overview to overview & " ++ dq ++ bullet ++ " " ++ dq
         ++ " & (name of thisToDo)" ];
     due_lines i12;
     [ i12 ++ "    set overview to overview & return";
       i12 ++ "end repeat";
       i12;
       i12 ++ "-- Upcoming tasks";
       i12 ++ "set upcomingTasks to to dos of list " ++ dq ++ "Upcoming" ++ dq;
       i12 ++ "set overview to overview & return & " ++ dq ++ upcoming_icon ++ " UPCOMING ("
         ++ dq ++ " & (count of upcomingTasks) & " ++ dq ++ " tasks):" ++ dq ++ " & return";
       i12 ++ "repeat with thisToDo in upcomingTasks";
       i12 ++ "    set overview to overview & " ++ dq ++ bullet ++ " " ++ dq
         ++ " & (name of thisToDo)" ];
     due_lines i12;
     [ i12 ++ "    set overview to overview & return";
       i12 ++ "end repeat";
       i12;
       i12 ++ "-- Active projects";
       i12 ++ "set openProjects to projects whose status is open";
       i12 ++ "set overview to overview & return & " ++ dq ++ projects_icon
         ++ " ACTIVE PROJECTS (" ++ dq ++ " & (count of openProjects) & " ++ dq ++ "):" ++ dq
         ++ " & return";
       i12 ++ "repeat with thisProject in openProjects";
       i12 ++ "    set projectTasks to to dos of thisProject whose status is open";
       i12 ++ "    set overview to overview & " ++ dq ++ bullet ++ " " ++ dq
         ++ " & (name of thisProject) & " ++ dq ++ " (" ++ dq ++ " & (count of projectTasks) & "
         ++ dq ++ " tasks)" ++ dq ++ " & return";
       i12 ++ "end repeat";
       i12;
       i12 ++ "return overview";
       "        end tell";
       "        " ]]).

(** [update_task]: [tags] is accepted and never used. *)
Definition update_task_script (task_identifier : string) (title notes due_date : option string)
    (tags : option (list string)) : string :=
  let script_parts :=
    [ "tell application " ++ dq ++ "Things3" ++ dq;
      "    try";
      "        set targetToDo to to do id " ++ dq ++ task_identifier ++ dq;
      "    on error";
      "        try";
      "            set targetToDo to to do " ++ dq ++ task_identifier ++ dq;
      "        on error";
      "            return " ++ dq ++ "Task not found" ++ dq;
      "        end try";
      "    end try";
      "    ";
      "    set updateResult to " ++ dq ++ dq ] in
  let script_parts :=
    match truthy title with
    | Some title =>
        extend script_parts
        [ "    set name of targetToDo to " ++ dq ++ title ++ dq;
          "    set updateResult to updateResult & " ++ dq ++ "Title updated. " ++ dq ]
    | None => script_parts
    end in
  let script_parts :=
    match truthy notes with
    | Some notes =>
        extend script_parts
        [ "    set notes of targetToDo to " ++ dq ++ notes ++ dq;
          "    set updateResult to updateResult & " ++ dq ++ "Notes updated. " ++ dq ]
    | None => script_parts
    end in
  let script_parts :=
    match truthy due_date with
    | Some due_date =>
        extend script_parts
        [ "    set due date of targetToDo to date(" ++ dq ++ due_date ++ dq ++ ")";
          "    set updateResult to updateResult & " ++ dq ++ "Due date updated. " ++ dq ]
    | None => script_parts
    end in
  let script_parts := extend script_parts [ "    return updateResult"; "end tell" ] in
  join nl script_parts.

(* ================================================================= *)
(** ** The process invoker, the parsers and the controller methods *)

(** What [subprocess.run(..., capture_output=True, text=True)] returns. *)
Record CompletedProcess : Type :=
  { returncode : Z; stdout : string; stderr : string }.

(** The dictionaries the parsers build. *)
Record task_dict : Type :=
  { task_title : string;
    task_id : string;
    task_notes : string;
    task_due_date : option string;
    task_creation_date : option string;
    task_status : string }.

Record item_dict : Type :=
  { item_title : string; item_id : string; item_status : string }.

Definition missing_value : string := "missing value".

(** [x.strip() if x.strip() != 'missing value' else ''] and the same with
    [None]. *)
Definition or_empty (x : string) : string :=
  if negb (String.eqb (strip x) missing_value) then strip x else "".

Definition or_none (x : string) : option string :=
  if negb (String.eqb (strip x) missing_value) then Some (strip x) else None.

(** The [for task_line in result.split(',')] loop of [list_tasks]; [tasks]
    is the list being appended to. *)
Fixpoint list_tasks_loop (lines : list string) (tasks : list task_dict)
    : result (list task_dict) :=
  match lines with
  | [] => Ok tasks
  | task_line :: lines' =>
      if contains "|||" task_line then
        let parts := split "|||" task_line in
        if (6 <=? List.length parts)%nat then
          p0 <- getitem parts 0 ;;
          p1 <- getitem parts 1 ;;
          p2 <- getitem parts 2 ;;
          p3 <- getitem parts 3 ;;
          p4 <- getitem parts 4 ;;
          p5 <- getitem parts 5 ;;
          list_tasks_loop lines'
            (extend tasks
               [ {| task_title := strip p0;
                    task_id := strip p1;
                    task_notes := or_empty p2;
                    task_due_date := or_none p3;
                    task_creation_date := or_none p4;
                    task_status := strip p5 |} ])
        else list_tasks_loop lines' tasks
      else list_tasks_loop lines' tasks
  end.

Definition parse_list_tasks (result_ : string) : result (list task_dict) :=
  if String.eqb result_ "" then Ok [] else list_tasks_loop (split "," result_) [].

(** The loop of [search_tasks] and of [list_projects] (the same text but
    for the names of the variables). *)
Fixpoint items_loop (lines : list string) (items : list item_dict)
    : result (list item_dict) :=
  match lines with
  | [] => Ok items
  | line :: lines' =>
      if contains "|||" line then
        let parts := split "|||" line in
        if (3 <=? List.length parts)%nat then
          p0 <- getitem parts 0 ;;
          p1 <- getitem parts 1 ;;
          p2 <- getitem parts 2 ;;
          items_loop lines'
            (extend items
               [ {| item_title := strip p0; item_id := strip p1; item_status := strip p2 |} ])
        else items_loop lines' items
      else items_loop lines' items
  end.

Definition parse_search_tasks (result_ : string) : result (list item_dict) :=
  if String.eqb result_ "" then Ok [] else items_loop (split "," result_) [].

Definition parse_list_projects (result_ : string) : result (list item_dict) :=
  if String.eqb result_ "" then Ok [] else items_loop (split "," result_) [].

Section Controller.

(** The external process: what [subprocess.run] does with an argument
    vector (it returns, times out, or fails otherwise). *)
Variable subprocess_run : list string -> result CompletedProcess.

(** [execute_applescript]: the [try] body, then the two [except] clauses.
    An exception raised inside an [except] clause is not caught by the
    clause after it. *)
Definition execute_applescript (script : string) : result string :=
  let attempt :=
    let escaped_script := replace apos (apos ++ dq ++ apos ++ dq ++ apos) script in
    result_ <- subprocess_run [ "osascript"; "-e"; script ] ;;
    if negb (returncode result_ =? 0)%Z
    then Raise (Exception ("AppleScript error: " ++ stderr result_))
    else Ok (strip (stdout result_)) in
  match attempt with
  | Ok out => Ok out
  | Raise TimeoutExpired => Raise (Exception "AppleScript execution timed out")
  | Raise e => Raise (Exception ("Failed to execute AppleScript: " ++ str_exn e))
  end.

Definition add_task (title : string) (notes due_date area project : option string)
    (tags : option (list string)) : result string :=
  execute_applescript (add_task_script title notes due_date area project tags).

Definition list_tasks (list_name : string) (limit : number) : result (list task_dict) :=
  result_ <- execute_applescript (list_tasks_script list_name limit) ;;
  parse_list_tasks result_.

Definition complete_task (task_identifier : string) : result string :=
  execute_applescript (complete_task_script task_identifier).

Definition search_tasks (query : string) (limit : number) : result (list item_dict) :=
  result_ <- execute_applescript (search_tasks_script query limit) ;;
  parse_search_tasks result_.

Definition list_projects (status : string) : result (list item_dict) :=
  result_ <- execute_applescript (list_projects_script status) ;;
  parse_list_projects result_.

Definition add_project (title : string) (notes area : option string) (when : string)
    : result string :=
  execute_applescript (add_project_script title notes area when).

Definition get_daily_overview : result string :=
  execute_applescript get_daily_overview_script.

Definition update_task (task_identifier : string) (title notes due_date : option string)
    (tags : option (list string)) : result string :=
  execute_applescript (update_task_script task_identifier title notes due_date tags).

(* ================================================================= *)
(** ** The dispatcher *)

(** The argument bundle of a tool call, as the input schemas declared in
    [handle_list_tools] type it: each key is absent ([None]) or holds a
    value of its declared type ([limit] holds a JSON number, integer or
    not). *)
Record arguments : Type :=
  { arg_title : option string;
    arg_notes : option string;
    arg_due_date : option string;
    arg_area : option string;
    arg_project : option string;
    arg_tags : option (list string);
    arg_list : option string;
    arg_limit : option number;
    arg_task_id : option string;
    arg_query : option string;
    arg_status : option string;
    arg_when : option string }.

(** [{}]. *)
Definition empty_arguments : arguments :=
  {| arg_title := None; arg_notes := None; arg_due_date := None; arg_area := None;
     arg_project := None; arg_tags := None; arg_list := None; arg_limit := None;
     arg_task_id := None; arg_query := None; arg_status := None; arg_when := None |}.

(** [arguments[key]] and [arguments.get(key, default)]. *)
Definition subscript {A} (key : string) (v : option A) : result A :=
  match v with
  | Some x => Ok x
  | None => Raise (KeyError key)
  end.

Definition get {A} (v : option A) (default : A) : A :=
  match v with
  | Some x => x
  | None => default
  end.

Record TextContent : Type := { type : string; text : string }.

Definition reply (s : string) : list TextContent := [ {| type := "text"; text := s |} ].

(** The body of the [try] of [handle_call_tool]. *)
Definition call_tool (name : string) (arguments : arguments) : result (list TextContent) :=
  if String.eqb name "add_task" then
    title <- subscript "title" (arg_title arguments) ;;
    task_id <- add_task title
                 (Some (get (arg_notes arguments) ""))
                 (arg_due_date arguments)
                 (arg_area arguments)
                 (arg_project arguments)
                 (Some (get (arg_tags arguments) [])) ;;
    title' <- subscript "title" (arg_title arguments) ;;
    Ok (reply ("Task " ++ apos ++ title' ++ apos ++ " added successfully with ID: " ++ task_id))
  else if String.eqb name "list_tasks" then
    tasks <- list_tasks (get (arg_list arguments) "today") (get (arg_limit arguments) (Int 20)) ;;
    match tasks with
    | [] => Ok (reply ("No tasks found in " ++ get (arg_list arguments) "today" ++ " list"))
    | _ =>
        let result_ :=
          "Found " ++ str_nat (List.length tasks) ++ " tasks in "
          ++ get (arg_list arguments) "today" ++ ":" ++ nl ++ nl in
        let result_ :=
          fold_left
            (fun result_ task =>
               let result_ := result_ ++ bullet ++ " " ++ task_title task in
               let result_ :=
                 match truthy (task_due_date task) with
                 | Some due => result_ ++ " (Due: " ++ due ++ ")"
                 | None => result_
                 end in
               let result_ :=
                 match truthy (Some (task_notes task)) with
                 | Some notes => result_ ++ nl ++ "  Notes: " ++ notes
                 | None => result_
                 end in
               result_ ++ nl)
            tasks result_ in
        Ok (reply result_)
    end
  else if String.eqb name "complete_task" then
    task_id <- subscript "task_id" (arg_task_id arguments) ;;
    result_ <- complete_task task_id ;;
    Ok (reply result_)
  else if String.eqb name "search_tasks" then
    query <- subscript "query" (arg_query arguments) ;;
    tasks <- search_tasks query (get (arg_limit arguments) (Int 10)) ;;
    match tasks with
    | [] =>
        query' <- subscript "query" (arg_query arguments) ;;
        Ok (reply ("No tasks found matching " ++ apos ++ query' ++ apos))
    | _ =>
        query' <- subscript "query" (arg_query arguments) ;;
        let result_ :=
          "Found " ++ str_nat (List.length tasks) ++ " tasks matching " ++ apos ++ query'
          ++ apos ++ ":" ++ nl ++ nl in
        Ok (reply
              (fold_left
                 (fun result_ task =>
                    result_ ++ bullet ++ " " ++ item_title task ++ " (" ++ item_status task
                    ++ ")" ++ nl)
                 tasks result_))
    end
  else if String.eqb name "list_projects" then
    projects <- list_projects (get (arg_status arguments) "open") ;;
    match projects with
    | [] => Ok (reply ("No " ++ get (arg_status arguments) "open" ++ " projects found"))
    | _ =>
        let result_ :=
          "Found " ++ str_nat (List.length projects) ++ " "
          ++ get (arg_status arguments) "open" ++ " projects:" ++ nl ++ nl in
        Ok (reply
              (fold_left
                 (fun result_ project => result_ ++ bullet ++ " " ++ item_title project ++ nl)
                 projects result_))
    end
  else if String.eqb name "add_project" then
    title <- subscript "title" (arg_title arguments) ;;
    project_id <- add_project title
                    (Some (get (arg_notes arguments) ""))
                    (arg_area arguments)
                    (get (arg_when arguments) "someday") ;;
    title' <- subscript "title" (arg_title arguments) ;;
    Ok (reply ("Project " ++ apos ++ title' ++ apos ++ " created successfully with ID: "
               ++ project_id))
  else if String.eqb name "get_daily_overview" then
    overview <- get_daily_overview ;;
    Ok (reply overview)
  else if String.eqb name "update_task" then
    task_id <- subscript "task_id" (arg_task_id arguments) ;;
    result_ <- update_task task_id
                 (arg_title arguments)
                 (arg_notes arguments)
                 (arg_due_date arguments)
                 (arg_tags arguments) ;;
    Ok (reply (match truthy (Some result_) with
               | Some r => r
               | None => "Task updated successfully"
               end))
  else
    Raise (ValueError ("Unknown tool: " ++ name)).

(** [handle_call_tool]: [None] becomes the empty bundle, and the one
    [except Exception] clause turns every exception into a reply. *)
Definition handle_call_tool (name : string) (arguments : option arguments)
    : list TextContent :=
  let arguments :=
    match arguments with
    | None => empty_arguments
    | Some a => a
    end in
  match call_tool name arguments with
  | Ok response => response
  | Raise e => reply ("Error executing " ++ name ++ ": " ++ str_exn e)
  end.

End Controller.

(* ================================================================= *)
(** ** The embedded AppleScript: string literals and what the scripts do *)

Module AppleScript.

(** *** Tokens

    The string-literal rule of the scripting language: a literal opens at a
    double quote and closes at the next double quote that no backslash
    precedes; inside, a backslash takes the character after it (n, r and t
    stand for the control characters, any other character for itself).
    Everything between literals is code.  A text that ends inside a literal
    is not a script. *)

Inductive token : Type :=
| Code (text : string)
| Lit (value : string).

Definition quote_char : ascii := ascii_of_nat 34.
Definition backslash_char : ascii := ascii_of_nat 92.

Definition unescape (c : ascii) : ascii :=
  if Ascii.eqb c "n" then ascii_of_nat 10
  else if Ascii.eqb c "r" then ascii_of_nat 13
  else if Ascii.eqb c "t" then ascii_of_nat 9
  else c.

Inductive lexer : Type :=
| InCode (acc : string)
| InString (acc : string)
| InEscape (acc : string).

Definition emit (t : token) (rest : option (list token)) : option (list token) :=
  option_map (cons t) rest.

Fixpoint tokenize_from (st : lexer) (s : string) : option (list token) :=
  match s with
  | EmptyString =>
      match st with
      | InCode acc => Some [Code acc]
      | _ => None
      end
  | String c s' =>
      match st with
      | InCode acc =>
          if Ascii.eqb c quote_char
          then emit (Code acc) (tokenize_from (InString EmptyString) s')
          else tokenize_from (InCode (acc ++ String c EmptyString)) s'
      | InString acc =>
          if Ascii.eqb c quote_char
          then emit (Lit acc) (tokenize_from (InCode EmptyString) s')
          else if Ascii.eqb c backslash_char
               then tokenize_from (InEscape acc) s'
               else tokenize_from (InString (acc ++ String c EmptyString)) s'
      | InEscape acc => tokenize_from (InString (acc ++ String (unescape c) EmptyString)) s'
      end
  end.

Definition tokenize (s : string) : option (list token) := tokenize_from (InCode EmptyString) s.

Fixpoint literals (toks : list token) : list string :=
  match toks with
  | [] => []
  | Lit v :: toks' => v :: literals toks'
  | Code _ :: toks' => literals toks'
  end.

Fixpoint codes (toks : list token) : list string :=
  match toks with
  | [] => []
  | Code c :: toks' => c :: codes toks'
  | Lit _ :: toks' => codes toks'
  end.

(** The strings a script denotes, in order; [None] when it is not a script. *)
Definition string_literals (s : string) : option (list string) :=
  option_map literals (tokenize s).

(** A text that a literal holds verbatim: no quote, no backslash. *)
Definition plain (s : string) : bool :=
  negb (has_char quote_char s) && negb (has_char backslash_char s).

(** *** The application

    To-dos in the application's own order, the to-dos of each built-in
    list, the conversion [date(text)] (which fails on a text that is no
    date), and the object requests the scripts have made so far. *)

Record to_do : Type :=
  { td_name : string;
    td_id : string;
    td_notes : string;
    td_due_date : option string;
    td_creation_date : option string;
    td_status : string }.

Inductive request : Type :=
| ToDoById (x : string)
| ToDoNamed (x : string).

Record things : Type :=
  { to_dos : list to_do;
    to_dos_of_list : string -> list to_do;
    date : string -> option string;
    requests : list request }.

(** A run of statements ends normally, at a [return], or in an error. *)
Inductive outcome (A : Type) : Type :=
| Value (a : A)
| Returned (text : string)
| Errored.
Arguments Value {A} a.
Arguments Returned {A} text.
Arguments Errored {A}.

Definition script (A : Type) : Type := things -> outcome A * things.

Definition pure {A} (a : A) : script A := fun app => (Value a, app).

Definition seq {A B} (m : script A) (k : A -> script B) : script B :=
  fun app =>
    match m app with
    | (Value a, app') => k a app'
    | (Returned v, app') => (Returned v, app')
    | (Errored, app') => (Errored, app')
    end.

(** [return v]. *)
Definition return_ {A} (v : string) : script A := fun app => (Returned v, app).

(** [try body on error handler end try]. *)
Definition try_ {A} (body handler : script A) : script A :=
  fun app =>
    match body app with
    | (Errored, app') => handler app'
    | done => done
    end.

Fixpoint find_index (p : to_do -> bool) (l : list to_do) : option nat :=
  match l with
  | [] => None
  | t :: l' => if p t then Some 0 else option_map S (find_index p l')
  end.

Definition ask (r : request) (app : things) : things :=
  {| to_dos := to_dos app;
     to_dos_of_list := to_dos_of_list app;
     date := date app;
     requests := (requests app ++ [r])%list |}.

(** [to do id x] and [to do x]: a reference (the position) or an error. *)
Definition to_do_id (x : string) : script nat :=
  fun app =>
    match find_index (fun t => String.eqb (td_id t) x) (to_dos app) with
    | Some i => (Value i, ask (ToDoById x) app)
    | None => (Errored, ask (ToDoById x) app)
    end.

Definition to_do_named (x : string) : script nat :=
  fun app =>
    match find_index (fun t => String.eqb (td_name t) x) (to_dos app) with
    | Some i => (Value i, ask (ToDoNamed x) app)
    | None => (Errored, ask (ToDoNamed x) app)
    end.

Fixpoint update_at (i : nat) (f : to_do -> to_do) (l : list to_do) : option (list to_do) :=
  match l, i with
  | [], _ => None
  | t :: l', O => Some (f t :: l')
  | t :: l', S j => option_map (cons t) (update_at j f l')
  end.

(** [set <property> of <to-do> to <value>]. *)
Definition set_property (i : nat) (f : to_do -> to_do) : script unit :=
  fun app =>
    match update_at i f (to_dos app) with
    | Some l =>
        (Value tt,
         {| to_dos := l; to_dos_of_list := to_dos_of_list app; date := date app;
            requests := requests app |})
    | None => (Errored, app)
    end.

Definition with_status (v : string) (t : to_do) : to_do :=
  {| td_name := td_name t; td_id := td_id t; td_notes := td_notes t;
     td_due_date := td_due_date t; td_creation_date := td_creation_date t;
     td_status := v |}.

Definition with_name (v : string) (t : to_do) : to_do :=
  {| td_name := v; td_id := td_id t; td_notes := td_notes t;
     td_due_date := td_due_date t; td_creation_date := td_creation_date t;
     td_status := td_status t |}.

Definition with_notes (v : string) (t : to_do) : to_do :=
  {| td_name := td_name t; td_id := td_id t; td_notes := v;
     td_due_date := td_due_date t; td_creation_date := td_creation_date t;
     td_status := td_status t |}.

Definition with_due_date (v : string) (t : to_do) : to_do :=
  {| td_name := td_name t; td_id := td_id t; td_notes := td_notes t;
     td_due_date := Some v; td_creation_date := td_creation_date t;
     td_status := td_status t |}.

(** [date(text)]. *)
Definition to_date (text : string) : script string :=
  fun app =>
    match date app text with
    | Some d => (Value d, app)
    | None => (Errored, app)
    end.

End AppleScript.

Import AppleScript.

Notation "x <~ m ;; k" := (seq m (fun x => k))
  (at level 61, m at next level, right associativity).

(** *** The script of [complete_task], statement by statement

    The five literals of the script after the application name are its
    parameters. *)
Definition complete_task_program (id1 found_by_id id2 found_by_title not_found : string)
    : script unit :=
  try_
    (completedToDo <~ to_do_id id1 ;;
     _ <~ set_property completedToDo (with_status "completed") ;;
     return_ found_by_id)
    (try_
       (completedToDo <~ to_do_named id2 ;;
        _ <~ set_property completedToDo (with_status "completed") ;;
        return_ found_by_title)
       (return_ not_found)).

(** *** The script of [update_task]

    [title], [notes] and [due_date] hold the value and the message of the
    statements that [update_task] adds when the argument is given. *)
Definition update_task_program (id1 id2 not_found initial : string)
    (title notes due_date : option (string * string)) : script unit :=
  targetToDo <~ try_ (to_do_id id1) (try_ (to_do_named id2) (return_ not_found)) ;;
  updateResult <~ pure initial ;;
  updateResult <~
    match title with
    | Some (v, msg) =>
        _ <~ set_property targetToDo (with_name v) ;; pure (updateResult ++ msg)
    | None => pure updateResult
    end ;;
  updateResult <~
    match notes with
    | Some (v, msg) =>
        _ <~ set_property targetToDo (with_notes v) ;; pure (updateResult ++ msg)
    | None => pure updateResult
    end ;;
  updateResult <~
    match due_date with
    | Some (v, msg) =>
        d <~ to_date v ;;
        _ <~ set_property targetToDo (with_due_date d) ;; pure (updateResult ++ msg)
    | None => pure updateResult
    end ;;
  return_ updateResult.

(** *** The records of a response

    The [taskInfo] expressions of the scripts of [list_tasks] and of
    [search_tasks] spell out the text asked of the application for one
    to-do: its fields, concatenated with the field separator between
    them.  The application writes a value that is absent as the sentinel
    text. *)
Definition as_text (o : option string) : string :=
  match o with
  | Some s => s
  | None => missing_value
  end.

Definition task_info (t : to_do) : string :=
  td_name t ++ "|||" ++ td_id t ++ "|||" ++ td_notes t ++ "|||" ++ as_text (td_due_date t)
  ++ "|||" ++ as_text (td_creation_date t) ++ "|||" ++ td_status t.

Definition search_info (t : to_do) : string :=
  td_name t ++ "|||" ++ td_id t ++ "|||" ++ td_status t.

(** *** Running a script text

    A text is run as the program it is an instance of: it must tokenize,
    and the code between its literals must be the code of the template; the
    literals are then the parameters of the program. *)
Inductive run : Type :=
| NotAScript
| AnotherScript
| Ran (result_ : outcome unit) (after : things).

Definition skeleton (template : string) : list string :=
  match tokenize template with
  | Some toks => codes toks
  | None => []
  end.

Definition run_script (template : string) (program : list string -> script unit)
    (text : string) (app : things) : run :=
  match tokenize text with
  | None => NotAScript
  | Some toks =>
      if list_eq_dec string_dec (codes toks) (skeleton template)
      then let (o, app') := program (literals toks) app in Ran o app'
      else AnotherScript
  end.

Definition fail : script unit := fun app => (Errored, app).

Definition complete_task_literals (lits : list string) : script unit :=
  match lits with
  | [_; id1; found_by_id; id2; found_by_title; not_found] =>
      complete_task_program id1 found_by_id id2 found_by_title not_found
  | _ => fail
  end.

Definition run_complete_task (text : string) (app : things) : run :=
  run_script (complete_task_script EmptyString) complete_task_literals text app.

(** For [update_task] the template is the one built for the same choice of
    optional arguments. *)
Definition placeholder (o : option string) : option string :=
  match truthy o with
  | Some _ => Some "x"
  | None => None
  end.

Definition take_pair (o : option string) (lits : list string)
    : option (string * string) * list string :=
  match truthy o, lits with
  | Some _, v :: msg :: lits' => (Some (v, msg), lits')
  | _, _ => (None, lits)
  end.

Definition update_task_literals (title notes due_date : option string) (lits : list string)
    : script unit :=
  match lits with
  | _ :: id1 :: id2 :: not_found :: initial :: lits1 =>
      let (t, lits2) := take_pair title lits1 in
      let (n, lits3) := take_pair notes lits2 in
      let (d, _) := take_pair due_date lits3 in
      update_task_program id1 id2 not_found initial t n d
  | _ => fail
  end.

Definition run_update_task (title notes due_date : option string) (text : string)
    (app : things) : run :=
  run_script
    (update_task_script EmptyString (placeholder title) (placeholder notes)
       (placeholder due_date) None)
    (update_task_literals title notes due_date) text app.

(* ================================================================= *)
(** ** Vocabulary of the properties *)

(** The strings the script of [add_task] and of [update_task] should
    denote: the application name, then every value that is spliced in. *)
Definition present (o : option string) : list string :=
  match truthy o with
  | Some v => [v]
  | None => []
  end.

Definition present_list (o : option (list string)) : list string :=
  match truthy_list o with
  | Some l => l
  | None => []
  end.

Definition add_task_values (title : string) (notes due_date area project : option string)
    (tags : option (list string)) : list string :=
  ("Things3" :: title :: present notes ++ present due_date ++ present area
     ++ present project ++ present_list tags)%list.

Definition with_message (o : option string) (msg : string) : list string :=
  match truthy o with
  | Some v => [v; msg]
  | None => []
  end.

Definition update_task_values (task_identifier : string) (title notes due_date : option string)
    : list string :=
  ([ "Things3"; task_identifier; task_identifier; "Task not found"; EmptyString ]
     ++ with_message title "Title updated. "
     ++ with_message notes "Notes updated. "
     ++ with_message due_date "Due date updated. ")%list.

Definition all_plain (l : list string) : bool := forallb plain l.

(** The optional fields of the two creating operations, the keyword of the
    clause of each, and a creating request. *)
Inductive field : Type := Notes | DueDate | Area | Project | Tags.

Definition keyword (f : field) : string :=
  match f with
  | Notes => "notes:"
  | DueDate => "due date:"
  | Area => "area:"
  | Project => "project:"
  | Tags => "tag"
  end.

Inductive creation : Type :=
| AddTask (title : string) (notes due_date area project : option string)
    (tags : option (list string))
| AddProject (title : string) (notes area : option string) (when : string).

Definition render (c : creation) : string :=
  match c with
  | AddTask title notes due_date area project tags =>
      add_task_script title notes due_date area project tags
  | AddProject title notes area when => add_project_script title notes area when
  end.

Definition is_none {A} (o : option A) : bool :=
  match o with
  | Some _ => false
  | None => true
  end.

(** The field is absent or empty in the request (a field the operation
    does not take is absent). *)
Definition absent (f : field) (c : creation) : bool :=
  match c, f with
  | AddTask _ notes _ _ _ _, Notes => is_none (truthy notes)
  | AddTask _ _ due_date _ _ _, DueDate => is_none (truthy due_date)
  | AddTask _ _ _ area _ _, Area => is_none (truthy area)
  | AddTask _ _ _ _ project _, Project => is_none (truthy project)
  | AddTask _ _ _ _ _ tags, Tags => is_none (truthy_list tags)
  | AddProject _ notes _ _, Notes => is_none (truthy notes)
  | AddProject _ _ area _, Area => is_none (truthy area)
  | AddProject _ _ _ _, _ => true
  end.

(** The values of the request that are spliced into the script. *)
Definition supplied (c : creation) : list string :=
  match c with
  | AddTask title notes due_date area project tags =>
      (title :: present notes ++ present due_date ++ present area ++ present project
         ++ present_list tags)%list
  | AddProject title notes area _ => (title :: present notes ++ present area)%list
  end.

Definition free_of (k : string) (values : list string) : bool :=
  forallb (fun v => negb (contains k v)) values.

(** The record a line of at least [n] fields becomes. *)
Definition task_of_parts (parts : list string) : task_dict :=
  {| task_title := strip (nth 0 parts EmptyString);
     task_id := strip (nth 1 parts EmptyString);
     task_notes := or_empty (nth 2 parts EmptyString);
     task_due_date := or_none (nth 3 parts EmptyString);
     task_creation_date := or_none (nth 4 parts EmptyString);
     task_status := strip (nth 5 parts EmptyString) |}.

Definition item_of_parts (parts : list string) : item_dict :=
  {| item_title := strip (nth 0 parts EmptyString);
     item_id := strip (nth 1 parts EmptyString);
     item_status := strip (nth 2 parts EmptyString) |}.

Definition has_fields (n : nat) (parts : list string) : bool := (n <=? List.length parts)%nat.

(** The field lists of the records of a response. *)
Definition records (raw : string) : list (list string) := map (split "|||") (split "," raw).

(** *** Scripts as pieces

    Every builder writes a script as fixed text with values put between
    two double quotes.  [render_pieces] is that way of writing, and each
    [.._pieces] below is the normal form of the builder of the same name
    (shown equal to it further down). *)
Inductive piece : Type :=
| Fixed (text : string)
| Spliced (v : string).

Definition render_piece (p : piece) : string :=
  match p with
  | Fixed text => text
  | Spliced v => dq ++ v ++ dq
  end.

Fixpoint render_pieces (ps : list piece) : string :=
  match ps with
  | [] => EmptyString
  | p :: ps' => render_piece p ++ render_pieces ps'
  end.

Fixpoint values (ps : list piece) : list string :=
  match ps with
  | [] => []
  | Fixed _ :: ps' => values ps'
  | Spliced v :: ps' => v :: values ps'
  end.

Fixpoint chunks (ps : list piece) : list string :=
  match ps with
  | [] => []
  | Fixed text :: ps' => text :: chunks ps'
  | Spliced _ :: ps' => chunks ps'
  end.

(** The quote-free stretches of a rendering and the values, in order:
    code, value, code, ..., code. *)
Fixpoint segments_from (acc : string) (ps : list piece) : list string :=
  match ps with
  | [] => [acc]
  | Fixed text :: ps' => segments_from (acc ++ text) ps'
  | Spliced v :: ps' => acc :: v :: segments_from EmptyString ps'
  end.

Fixpoint tokens_from (acc : string) (ps : list piece) : list token :=
  match ps with
  | [] => [Code acc]
  | Fixed text :: ps' => tokens_from (acc ++ text) ps'
  | Spliced v :: ps' => Code acc :: Lit v :: tokens_from EmptyString ps'
  end.

Definition clause (o : option string) (label close : string) : list piece :=
  match truthy o with
  | Some v => [Fixed label; Spliced v; Fixed close]
  | None => []
  end.

Definition tag_pieces (tags : list string) : list piece :=
  match tags with
  | [] => [Spliced EmptyString]
  | t :: ts => Spliced t :: flat_map (fun x => [Fixed ", "; Spliced x]) ts
  end.

Definition add_task_pieces (title : string) (notes due_date area project : option string)
    (tags : option (list string)) : list piece :=
  ([ Fixed "tell application "; Spliced "Things3"; Fixed nl;
     Fixed "    set newToDo to make new to do with properties {name:"; Spliced title ]
   ++ clause notes ", notes:" EmptyString
   ++ clause due_date ", due date:date(" ")"
   ++ clause area ", area:" EmptyString
   ++ clause project ", project:" EmptyString
   ++ [ Fixed "}" ]
   ++ match truthy_list tags with
      | Some tags =>
          [ Fixed nl; Fixed "    repeat with tagName in {" ] ++ tag_pieces tags
          ++ [ Fixed "}"; Fixed nl; Fixed "        set tag of newToDo to tagName";
               Fixed nl; Fixed "    end repeat" ]
      | None => []
      end
   ++ [ Fixed nl; Fixed "    return id of newToDo"; Fixed nl; Fixed "end tell" ])%list.

Definition add_project_pieces (title : string) (notes area : option string) (when : string)
    : list piece :=
  ([ Fixed "tell application "; Spliced "Things3"; Fixed nl;
     Fixed "    set newProject to make new project with properties {name:"; Spliced title ]
   ++ clause notes ", notes:" EmptyString
   ++ clause area ", area:" EmptyString
   ++ [ Fixed "}" ]
   ++ (if String.eqb when "today"
       then [ Fixed nl; Fixed "    set start date of newProject to current date" ]
       else [])
   ++ [ Fixed nl; Fixed "    return id of newProject"; Fixed nl; Fixed "end tell" ])%list.

Definition statement (o : option string) (before after msg : string) : list piece :=
  match truthy o with
  | Some v =>
      [ Fixed nl; Fixed before; Spliced v; Fixed after; Fixed nl;
        Fixed "    set updateResult to updateResult & "; Spliced msg ]
  | None => []
  end.

Definition update_task_pieces (task_identifier : string) (title notes due_date : option string)
    : list piece :=
  ([ Fixed "tell application "; Spliced "Things3"; Fixed nl;
     Fixed "    try"; Fixed nl;
     Fixed "        set targetToDo to to do id "; Spliced task_identifier; Fixed nl;
     Fixed "    on error"; Fixed nl;
     Fixed "        try"; Fixed nl;
     Fixed "            set targetToDo to to do "; Spliced task_identifier; Fixed nl;
     Fixed "        on error"; Fixed nl;
     Fixed "            return "; Spliced "Task not found"; Fixed nl;
     Fixed "        end try"; Fixed nl;
     Fixed "    end try"; Fixed nl;
     Fixed "    "; Fixed nl;
     Fixed "    set updateResult to "; Spliced EmptyString ]
   ++ statement title "    set name of targetToDo to " EmptyString "Title updated. "
   ++ statement notes "    set notes of targetToDo to " EmptyString "Notes updated. "
   ++ statement due_date "    set due date of targetToDo to date(" ")" "Due date updated. "
   ++ [ Fixed nl; Fixed "    return updateResult"; Fixed nl; Fixed "end tell" ])%list.

Definition complete_task_pieces (task_identifier : string) : list piece :=
  [ Fixed EmptyString; Fixed nl;
    Fixed "        tell application "; Spliced "Things3"; Fixed nl;
    Fixed "            try"; Fixed nl;
    Fixed "                set completedToDo to to do id "; Spliced task_identifier; Fixed nl;
    Fixed "                set status of completedToDo to completed"; Fixed nl;
    Fixed "                return "; Spliced "Task completed successfully (found by ID)";
    Fixed nl;
    Fixed "            on error"; Fixed nl;
    Fixed "                try"; Fixed nl;
    Fixed "                    set completedToDo to to do "; Spliced task_identifier; Fixed nl;
    Fixed "                    set status of completedToDo to completed"; Fixed nl;
    Fixed "                    return "; Spliced "Task completed successfully (found by title)";
    Fixed nl;
    Fixed "                on error"; Fixed nl;
    Fixed "                    return "; Spliced ("Task not found: " ++ task_identifier);
    Fixed nl;
    Fixed "                end try"; Fixed nl;
    Fixed "            end try"; Fixed nl;
    Fixed "        end tell"; Fixed nl;
    Fixed "        " ].

(** A request that writes user text into a script, the script built for
    it, and the strings that script should denote. *)
Inductive written : Type :=
| Added (title : string) (notes due_date area project : option string)
    (tags : option (list string))
| Updated (task_identifier : string) (title notes due_date : option string)
    (tags : option (list string)).

Definition script_of (w : written) : string :=
  match w with
  | Added title notes due_date area project tags =>
      add_task_script title notes due_date area project tags
  | Updated task_identifier title notes due_date tags =>
      update_task_script task_identifier title notes due_date tags
  end.

Definition values_of (w : written) : list string :=
  match w with
  | Added title notes due_date area project tags =>
      add_task_values title notes due_date area project tags
  | Updated task_identifier title notes due_date _ =>
      update_task_values task_identifier title notes due_date
  end.

Definition pieces_of (w : written) : list piece :=
  match w with
  | Added title notes due_date area project tags =>
      add_task_pieces title notes due_date area project tags
  | Updated task_identifier title notes due_date _ =>
      update_task_pieces task_identifier title notes due_date
  end.

Definition quote_free (s : string) : bool := negb (has_char quote_char s).

(** The quote-free stretches alone. *)
Fixpoint code_segments_from (acc : string) (ps : list piece) : list string :=
  match ps with
  | [] => [acc]
  | Fixed text :: ps' => code_segments_from (acc ++ text) ps'
  | Spliced _ :: ps' => acc :: code_segments_from EmptyString ps'
  end.

Definition pieces_of_creation (c : creation) : list piece :=
  match c with
  | AddTask title notes due_date area project tags =>
      add_task_pieces title notes due_date area project tags
  | AddProject title notes area when => add_project_pieces title notes area when
  end.

(** No field of a record of [list_tasks] that the parser maps holds the
    sentinel. *)
Definition sentinel_free (r : task_dict) : Prop :=
  task_notes r <> missing_value /\
  task_due_date r <> Some missing_value /\
  task_creation_date r <> Some missing_value.

(** The operations [handle_list_tools] declares, and whether a bundle
    holds the arguments the schema of the operation requires. *)
Definition tools : list string :=
  [ "add_task"; "list_tasks"; "complete_task"; "search_tasks"; "list_projects";
    "add_project"; "get_daily_overview"; "update_task" ].

Definition required (name : string) (a : arguments) : bool :=
  if String.eqb name "add_task" then negb (is_none (arg_title a))
  else if String.eqb name "complete_task" then negb (is_none (arg_task_id a))
  else if String.eqb name "search_tasks" then negb (is_none (arg_query a))
  else if String.eqb name "add_project" then negb (is_none (arg_title a))
  else if String.eqb name "update_task" then negb (is_none (arg_task_id a))
  else true.

Definition bundle (a : option arguments) : arguments :=
  match a with
  | None => empty_arguments
  | Some a => a
  end.

(** A request that addresses a task by identifier, the script built for
    it, the run of a script text as that operation's program, the message
    of the not-found branch and the values spliced into the script. *)
Inductive by_identifier : Type :=
| Completing (task_identifier : string)
| Updating (task_identifier : string) (title notes due_date : option string)
    (tags : option (list string)).

Definition identifier_of (r : by_identifier) : string :=
  match r with
  | Completing task_identifier => task_identifier
  | Updating task_identifier _ _ _ _ => task_identifier
  end.

Definition lookup_script (r : by_identifier) : string :=
  match r with
  | Completing task_identifier => complete_task_script task_identifier
  | Updating task_identifier title notes due_date tags =>
      update_task_script task_identifier title notes due_date tags
  end.

Definition run_lookup (r : by_identifier) (text : string) (app : things) : run :=
  match r with
  | Completing _ => run_complete_task text app
  | Updating _ title notes due_date _ => run_update_task title notes due_date text app
  end.

Definition not_found_message (r : by_identifier) : string :=
  match r with
  | Completing task_identifier => "Task not found: " ++ task_identifier
  | Updating _ _ _ _ _ => "Task not found"
  end.

Definition found_messages (r : by_identifier) : list string :=
  match r with
  | Completing _ =>
      [ "Task completed successfully (found by ID)";
        "Task completed successfully (found by title)" ]
  | Updating _ _ _ _ _ =>
      [ EmptyString; "Title updated. "; "Notes updated. "; "Due date updated. ";
        "Title updated. Notes updated. "; "Title updated. Due date updated. ";
        "Notes updated. Due date updated. ";
        "Title updated. Notes updated. Due date updated. " ]
  end.

Definition lookup_values (r : by_identifier) : list string :=
  match r with
  | Completing task_identifier => [ task_identifier ]
  | Updating task_identifier title notes due_date _ =>
      (task_identifier :: present title ++ present notes ++ present due_date)%list
  end.

(** No to-do has the identifier as its id, and none as its name. *)
Definition no_such_to_do (x : string) (app : things) : Prop :=
  find_index (fun t => String.eqb (td_id t) x) (to_dos app) = None /\
  find_index (fun t => String.eqb (td_name t) x) (to_dos app) = None.

(** What the invoker makes of what [subprocess.run] has observed. *)
Definition outcome_of (observed : result CompletedProcess) : result string :=
  match observed with
  | Ok p =>
      if (returncode p =? 0)%Z
      then Ok (strip (stdout p))
      else Raise (Exception
                    ("Failed to execute AppleScript: AppleScript error: " ++ stderr p))
  | Raise TimeoutExpired => Raise (Exception "AppleScript execution timed out")
  | Raise e => Raise (Exception ("Failed to execute AppleScript: " ++ str_exn e))
  end.

(** A process that tells what it was given: called as [osascript -e text]
    it exits with code 1 and [text] on standard error; called in any other
    way it does not start. *)
Definition reports_script (argv : list string) : result CompletedProcess :=
  match argv with
  | [ program; flag; text ] =>
      if String.eqb program "osascript" && String.eqb flag "-e"
      then Ok {| returncode := 1; stdout := EmptyString; stderr := text |}
      else Raise (OSError "usage")
  | _ => Raise (OSError "usage")
  end.

(** The [escaped_script] that [execute_applescript] computes. *)
Definition escaped_script (script : string) : string :=
  replace apos (apos ++ dq ++ apos ++ dq ++ apos) script.

(** A process that exits with code 1 and a process that exceeds the
    timeout. *)
Definition exits_with_error (err : string) (argv : list string) : result CompletedProcess :=
  Ok {| returncode := 1; stdout := EmptyString; stderr := err |}.

Definition exceeds_timeout (argv : list string) : result CompletedProcess :=
  Raise TimeoutExpired.

(** A process that runs the scripts of [complete_task] against the
    application: standard output is the returned text; a text that is no
    script makes it exit with a non-zero code and a diagnostic. *)
Definition osascript_complete_task (app : things) (argv : list string)
    : result CompletedProcess :=
  match argv with
  | [ _; _; text ] =>
      match run_complete_task text app with
      | Ran (Returned v) _ =>
          Ok {| returncode := 0; stdout := v; stderr := EmptyString |}
      | Ran (AppleScript.Value _) _ =>
          Ok {| returncode := 0; stdout := EmptyString; stderr := EmptyString |}
      | Ran Errored _ =>
          Ok {| returncode := 1; stdout := EmptyString; stderr := "execution error" |}
      | NotAScript =>
          Ok {| returncode := 1; stdout := EmptyString; stderr := "syntax error" |}
      | AnotherScript => Raise (OSError "unknown script")
      end
  | _ => Raise (OSError "usage")
  end.

(** A process that exits with code zero and the given standard output,
    whatever it is asked. *)
Definition answers (out : string) (argv : list string) : result CompletedProcess :=
  Ok {| returncode := 0; stdout := out; stderr := EmptyString |}.

(** The statements of the two scripts that mention the limit, each with
    the statement before it and the statement after it. *)
Definition list_tasks_stop (limit : number) : string :=
  "            repeat with i from 1 to (count of todoList)" ++ nl
  ++ "                if i > " ++ str_number limit ++ " then exit repeat" ++ nl
  ++ "                set thisToDo to item i of todoList" ++ nl.

Definition search_tasks_stop (limit : number) : string :=
  "                    set end of searchResults to taskInfo" ++ nl
  ++ "                    if (count of searchResults) " ++ ge_sign ++ " " ++ str_number limit
  ++ " then exit repeat" ++ nl
  ++ "                end if" ++ nl.

(** A response of three well-formed records. *)
Definition three_records : string :=
  join ","
    [ "Buy milk|||A1||||||missing value|||Monday 6 January 2025 at 09:00:00|||open";
      "Call Bob|||B2||||||missing value|||Monday 6 January 2025 at 09:00:00|||open";
      "Pay rent|||C3||||||missing value|||Monday 6 January 2025 at 09:00:00|||open" ].

Definition no_to_dos : things :=
  {| to_dos := []; to_dos_of_list := fun _ => []; date := fun _ => None; requests := [] |}.

Definition task_id_only (task_id : string) : arguments :=
  {| arg_title := None; arg_notes := None; arg_due_date := None; arg_area := None;
     arg_project := None; arg_tags := None; arg_list := None; arg_limit := None;
     arg_task_id := Some task_id; arg_query := None; arg_status := None;
     arg_when := None |}.

Definition sample_to_do (name id : string) : to_do :=
  {| td_name := name; td_id := id; td_notes := EmptyString; td_due_date := None;
     td_creation_date := Some "Monday 6 January 2025 at 09:00:00"; td_status := "open" |}.

Definition sample_record (name id : string) : task_dict :=
  {| task_title := name; task_id := id; task_notes := EmptyString; task_due_date := None;
     task_creation_date := Some "Monday 6 January 2025 at 09:00:00";
     task_status := "open" |}.

(* ================================================================= *)
(** ** The declared tools *)

(** [handle_list_tools]: the tools with their input schemas. *)
Inductive json_type : Type := TString | TNumber | TStringArray.

Inductive json_value : Type :=
| JString (s : string)
| JNumber (n : number).

Record property : Type :=
  { prop_key : string;
    prop_type : json_type;
    prop_description : string;
    prop_enum : list string;
    prop_default : option json_value }.

Record Tool : Type :=
  { tool_name : string;
    tool_description : string;
    tool_properties : list property;
    tool_required : list string }.

Definition prop (key : string) (t : json_type) (description : string) : property :=
  {| prop_key := key; prop_type := t; prop_description := description; prop_enum := [];
     prop_default := None |}.

Definition handle_list_tools : list Tool :=
  [ {| tool_name := "add_task";
       tool_description := "Add a new task to Things 3";
       tool_properties :=
         [ prop "title" TString "Task title";
           prop "notes" TString "Task notes (optional)";
           prop "due_date" TString "Due date in YYYY-MM-DD format (optional)";
           prop "area" TString "Area name (optional)";
           prop "project" TString "Project name (optional)";
           prop "tags" TStringArray "Tags (optional)" ];
       tool_required := [ "title" ] |};
    {| tool_name := "list_tasks";
       tool_description := "List tasks from Things 3";
       tool_properties :=
         [ {| prop_key := "list"; prop_type := TString;
              prop_description := "Which list to retrieve tasks from";
              prop_enum := [ "today"; "upcoming"; "anytime"; "someday"; "inbox"; "completed" ];
              prop_default := Some (JString "today") |};
           {| prop_key := "limit"; prop_type := TNumber;
              prop_description := "Maximum number of tasks to return";
              prop_enum := []; prop_default := Some (JNumber (Int 20)) |} ];
       tool_required := [] |};
    {| tool_name := "complete_task";
       tool_description := "Mark a task as completed";
       tool_properties := [ prop "task_id" TString "Task ID or title to complete" ];
       tool_required := [ "task_id" ] |};
    {| tool_name := "search_tasks";
       tool_description := "Search for tasks by keyword";
       tool_properties :=
         [ prop "query" TString "Search query";
           {| prop_key := "limit"; prop_type := TNumber;
              prop_description := "Maximum results";
              prop_enum := []; prop_default := Some (JNumber (Int 10)) |} ];
       tool_required := [ "query" ] |};
    {| tool_name := "list_projects";
       tool_description := "List projects from Things 3";
       tool_properties :=
         [ {| prop_key := "status"; prop_type := TString;
              prop_description := "Project status filter";
              prop_enum := [ "open"; "completed"; "all" ];
              prop_default := Some (JString "open") |} ];
       tool_required := [] |};
    {| tool_name := "add_project";
       tool_description := "Add a new project to Things 3";
       tool_properties :=
         [ prop "title" TString "Project title";
           prop "notes" TString "Project notes (optional)";
           prop "area" TString "Area name (optional)";
           prop "when" TString "When to start (today, someday, etc.)" ];
       tool_required := [ "title" ] |};
    {| tool_name := "get_daily_overview";
       tool_description :=
         "Get a comprehensive daily overview including today's tasks and upcoming items";
       tool_properties := [];
       tool_required := [] |};
    {| tool_name := "update_task";
       tool_description := "Update an existing task";
       tool_properties :=
         [ prop "task_id" TString "Task ID or title to update";
           prop "title" TString "New title (optional)";
           prop "notes" TString "New notes (optional)";
           prop "due_date" TString "New due date in YYYY-MM-DD format (optional)";
           prop "tags" TStringArray "New tags (optional)" ];
       tool_required := [ "task_id" ] |} ].

(** [key in arguments]. *)
Definition has_key (key : string) (a : arguments) : bool :=
  if String.eqb key "title" then negb (is_none (arg_title a))
  else if String.eqb key "notes" then negb (is_none (arg_notes a))
  else if String.eqb key "due_date" then negb (is_none (arg_due_date a))
  else if String.eqb key "area" then negb (is_none (arg_area a))
  else if String.eqb key "project" then negb (is_none (arg_project a))
  else if String.eqb key "tags" then negb (is_none (arg_tags a))
  else if String.eqb key "list" then negb (is_none (arg_list a))
  else if String.eqb key "limit" then negb (is_none (arg_limit a))
  else if String.eqb key "task_id" then negb (is_none (arg_task_id a))
  else if String.eqb key "query" then negb (is_none (arg_query a))
  else if String.eqb key "status" then negb (is_none (arg_status a))
  else if String.eqb key "when" then negb (is_none (arg_when a))
  else false.

(** The bundle with a declared default put in for a key it does not
    hold ([list], [limit] and [status] are the keys that declare one). *)
Definition fill_default (p : property) (a : arguments) : arguments :=
  match prop_default p with
  | Some (JString s) =>
      if String.eqb (prop_key p) "list" then
        {| arg_title := arg_title a; arg_notes := arg_notes a;
           arg_due_date := arg_due_date a; arg_area := arg_area a;
           arg_project := arg_project a; arg_tags := arg_tags a;
           arg_list := Some (get (arg_list a) s); arg_limit := arg_limit a;
           arg_task_id := arg_task_id a; arg_query := arg_query a;
           arg_status := arg_status a; arg_when := arg_when a |}
      else if String.eqb (prop_key p) "status" then
        {| arg_title := arg_title a; arg_notes := arg_notes a;
           arg_due_date := arg_due_date a; arg_area := arg_area a;
           arg_project := arg_project a; arg_tags := arg_tags a;
           arg_list := arg_list a; arg_limit := arg_limit a;
           arg_task_id := arg_task_id a; arg_query := arg_query a;
           arg_status := Some (get (arg_status a) s); arg_when := arg_when a |}
      else a
  | Some (JNumber n) =>
      if String.eqb (prop_key p) "limit" then
        {| arg_title := arg_title a; arg_notes := arg_notes a;
           arg_due_date := arg_due_date a; arg_area := arg_area a;
           arg_project := arg_project a; arg_tags := arg_tags a;
           arg_list := arg_list a; arg_limit := Some (get (arg_limit a) n);
           arg_task_id := arg_task_id a; arg_query := arg_query a;
           arg_status := arg_status a; arg_when := arg_when a |}
      else a
  | None => a
  end.

Definition with_defaults (t : Tool) (a : arguments) : arguments :=
  fold_right fill_default a (tool_properties t).

(* ================================================================= *)
(** ** More vocabulary *)

(** A field that the response format carries unchanged: no record or
    field delimiter character in it, and nothing for [strip] to remove. *)
Definition clean (s : string) : bool :=
  negb (has_char "," s) && negb (has_char "|" s) && String.eqb (strip s) s.

Definition clean_value (s : string) : bool :=
  clean s && negb (String.eqb s missing_value).

Definition clean_date (o : option string) : bool :=
  match o with
  | Some d => clean_value d
  | None => true
  end.

Definition clean_to_do (t : to_do) : bool :=
  clean (td_name t) && clean (td_id t) && clean_value (td_notes t)
  && clean_date (td_due_date t) && clean_date (td_creation_date t) && clean (td_status t).

Definition record_of_to_do (t : to_do) : task_dict :=
  {| task_title := td_name t; task_id := td_id t; task_notes := td_notes t;
     task_due_date := td_due_date t; task_creation_date := td_creation_date t;
     task_status := td_status t |}.

Definition item_of_to_do (t : to_do) : item_dict :=
  {| item_title := td_name t; item_id := td_id t; item_status := td_status t |}.

Definition clean_item (t : to_do) : bool :=
  clean (td_name t) && clean (td_id t) && clean (td_status t).

(** A text that does not begin with white space. *)
Definition starts_clean (s : string) : Prop := after_space whitespace s = None.

(** Every field of a record is as [strip] leaves it. *)
Definition trimmed (s : string) : Prop := strip s = s.

Definition trimmed_task (r : task_dict) : Prop :=
  trimmed (task_title r) /\ trimmed (task_id r) /\ trimmed (task_notes r) /\
  (forall d, task_due_date r = Some d -> trimmed d) /\
  (forall d, task_creation_date r = Some d -> trimmed d) /\
  trimmed (task_status r).

Definition trimmed_item (r : item_dict) : Prop :=
  trimmed (item_title r) /\ trimmed (item_id r) /\ trimmed (item_status r).

(** The name inside the list specifier that [list_tasks] selects. *)
Definition list_titles : list (string * string) :=
  [ ("today", "Today"); ("upcoming", "Upcoming"); ("anytime", "Anytime");
    ("someday", "Someday"); ("inbox", "Inbox"); ("completed", "Logbook") ].

Definition list_title (list_name : string) : string :=
  dict_get list_titles (lower list_name) "Today".

Definition list_tasks_pieces (list_name : string) (limit : number) : list piece :=
  [ Fixed EmptyString; Fixed nl;
    Fixed "        tell application "; Spliced "Things3"; Fixed nl;
    Fixed "            set taskList to {}"; Fixed nl;
    Fixed "            set todoList to to dos of list "; Spliced (list_title list_name);
    Fixed nl;
    Fixed "            repeat with i from 1 to (count of todoList)"; Fixed nl;
    Fixed "                if i > "; Fixed (str_number limit); Fixed " then exit repeat"; Fixed nl;
    Fixed "                set thisToDo to item i of todoList"; Fixed nl;
    Fixed "                set taskInfo to (name of thisToDo) & "; Spliced "|||";
    Fixed " & (id of thisToDo) & "; Spliced "|||"; Fixed " & "; Fixed continuation_mark;
    Fixed nl;
    Fixed "                    (notes of thisToDo) & "; Spliced "|||";
    Fixed " & (due date of thisToDo) & "; Spliced "|||"; Fixed " & "; Fixed continuation_mark;
    Fixed nl;
    Fixed "                    (creation date of thisToDo) & "; Spliced "|||";
    Fixed " & (status of thisToDo)"; Fixed nl;
    Fixed "                set end of taskList to taskInfo"; Fixed nl;
    Fixed "            end repeat"; Fixed nl;
    Fixed "            return taskList as string"; Fixed nl;
    Fixed "        end tell"; Fixed nl;
    Fixed "        " ].

Definition search_tasks_pieces (query : string) (limit : number) : list piece :=
  [ Fixed EmptyString; Fixed nl;
    Fixed "        tell application "; Spliced "Things3"; Fixed nl;
    Fixed "            set searchResults to {}"; Fixed nl;
    Fixed "            set allToDos to to dos"; Fixed nl;
    Fixed "            repeat with thisToDo in allToDos"; Fixed nl;
    Fixed "                if (name of thisToDo) contains "; Spliced query;
    Fixed " or (notes of thisToDo) contains "; Spliced query; Fixed " then"; Fixed nl;
    Fixed "                    set taskInfo to (name of thisToDo) & "; Spliced "|||";
    Fixed " & (id of thisToDo) & "; Spliced "|||"; Fixed " & (status of thisToDo)"; Fixed nl;
    Fixed "                    set end of searchResults to taskInfo"; Fixed nl;
    Fixed "                    if (count of searchResults) "; Fixed ge_sign; Fixed " ";
    Fixed (str_number limit); Fixed " then exit repeat"; Fixed nl;
    Fixed "                end if"; Fixed nl;
    Fixed "            end repeat"; Fixed nl;
    Fixed "            return searchResults as string"; Fixed nl;
    Fixed "        end tell"; Fixed nl;
    Fixed "        " ].

(** The other requests that write user text into a script. *)
Inductive also_written : Type :=
| ProjectAdded (title : string) (notes area : option string) (when : string)
| TaskCompleted (task_identifier : string)
| TasksSearched (query : string) (limit : number).

Definition script_written (w : also_written) : string :=
  match w with
  | ProjectAdded title notes area when => add_project_script title notes area when
  | TaskCompleted task_identifier => complete_task_script task_identifier
  | TasksSearched query limit => search_tasks_script query limit
  end.

Definition values_written (w : also_written) : list string :=
  match w with
  | ProjectAdded title notes area _ =>
      ("Things3" :: title :: present notes ++ present area)%list
  | TaskCompleted task_identifier =>
      [ "Things3"; task_identifier; "Task completed successfully (found by ID)";
        task_identifier; "Task completed successfully (found by title)";
        "Task not found: " ++ task_identifier ]
  | TasksSearched query _ => [ "Things3"; query; query; "|||"; "|||" ]
  end.

(** The to-do a script addresses by identifier: the one of that id, or
    else the one of that name; with the requests made to find it. *)
Definition locate (x : string) (app : things) : option (nat * list request) :=
  match find_index (fun t => String.eqb (td_id t) x) (to_dos app) with
  | Some i => Some (i, [ ToDoById x ])
  | None =>
      match find_index (fun t => String.eqb (td_name t) x) (to_dos app) with
      | Some i => Some (i, [ ToDoById x; ToDoNamed x ])
      | None => None
      end
  end.

Fixpoint map_at (i : nat) (f : to_do -> to_do) (l : list to_do) : list to_do :=
  match l, i with
  | [], _ => []
  | t :: l', O => f t :: l'
  | t :: l', S j => t :: map_at j f l'
  end.

(** The application after a script has found a to-do with [reqs] and
    changed it by [f]. *)
Definition changed (i : nat) (f : to_do -> to_do) (reqs : list request) (app : things)
    : things :=
  {| to_dos := map_at i f (to_dos app);
     to_dos_of_list := to_dos_of_list app;
     date := date app;
     requests := (requests app ++ reqs)%list |}.

Definition found_message (reqs : list request) : string :=
  match reqs with
  | [ _ ] => "Task completed successfully (found by ID)"
  | _ => "Task completed successfully (found by title)"
  end.

Definition update_name (title : option string) (t : to_do) : to_do :=
  match truthy title with
  | Some v => with_name v t
  | None => t
  end.

Definition update_notes (notes : option string) (t : to_do) : to_do :=
  match truthy notes with
  | Some v => with_notes v t
  | None => t
  end.

Definition message_if (o : option string) (msg : string) : string :=
  match truthy o with
  | Some _ => msg
  | None => EmptyString
  end.

(** The text of the reply of [list_tasks] for one record. *)
Definition task_line (task : task_dict) : string :=
  bullet ++ " " ++ task_title task
  ++ match truthy (task_due_date task) with
     | Some due => " (Due: " ++ due ++ ")"
     | None => EmptyString
     end
  ++ match truthy (Some (task_notes task)) with
     | Some notes => nl ++ "  Notes: " ++ notes
     | None => EmptyString
     end
  ++ nl.

(** The lines of the replies of [search_tasks] and of [list_projects]. *)
Definition search_line (task : item_dict) : string :=
  bullet ++ " " ++ item_title task ++ " (" ++ item_status task ++ ")" ++ nl.

Definition project_line (project : item_dict) : string :=
  bullet ++ " " ++ item_title project ++ nl.

(** The reply for a list of records: the text for none, or the header
    for their number followed by their lines. *)
Definition listing (none : string) (header : nat -> string) (lines : list string) : string :=
  match lines with
  | [] => none
  | _ => header (List.length lines) ++ String.concat EmptyString lines
  end.

(** A process that runs the scripts of [update_task] for one choice of
    optional arguments against the application, as
    [osascript_complete_task] does for [complete_task]. *)
Definition osascript_update_task (title notes due_date : option string) (app : things)
    (argv : list string) : result CompletedProcess :=
  match argv with
  | [ _; _; text ] =>
      match run_update_task title notes due_date text app with
      | Ran (Returned v) _ =>
          Ok {| returncode := 0; stdout := v; stderr := EmptyString |}
      | Ran (AppleScript.Value _) _ =>
          Ok {| returncode := 0; stdout := EmptyString; stderr := EmptyString |}
      | Ran Errored _ =>
          Ok {| returncode := 1; stdout := EmptyString; stderr := "execution error" |}
      | NotAScript =>
          Ok {| returncode := 1; stdout := EmptyString; stderr := "syntax error" |}
      | AnotherScript => Raise (OSError "unknown script")
      end
  | _ => Raise (OSError "usage")
  end.

(** The reply of [update_task] for the messages a script returns: the
    trimmed messages, or the text for none. *)
Definition update_reply (messages : string) : string :=
  match truthy (Some (strip messages)) with
  | Some r => r
  | None => "Task updated successfully"
  end.

(* ================================================================= *)
(** ** Strings *)

Section StringFacts.

Lemma append_assoc (a b c : string) : (a ++ b) ++ c = a ++ b ++ c.
Proof. induction a as [|x a IH]; simpl; [reflexivity | now rewrite IH]. Qed.

Lemma append_empty_r (a : string) : a ++ EmptyString = a.
Proof. induction a as [|x a IH]; simpl; [reflexivity | now rewrite IH]. Qed.

Lemma append_empty_l (a : string) : EmptyString ++ a = a.
Proof. reflexivity. Qed.

Lemma has_char_app (c : ascii) (a b : string) :
  has_char c (a ++ b) = has_char c a || has_char c b.
Proof.
  induction a as [|x a IH]; simpl; [reflexivity|].
  now rewrite IH, orb_assoc.
Qed.

Lemma join_one (sep a : string) : join sep [a] = a.
Proof. reflexivity. Qed.

Lemma join_cons (sep a b : string) (l : list string) :
  join sep (a :: b :: l) = a ++ sep ++ join sep (b :: l).
Proof. reflexivity. Qed.

Lemma truthy_list_nonempty {A} (o : option (list A)) (l : list A) :
  truthy_list o = Some l -> l <> [].
Proof.
  destruct o as [[|x l']|]; simpl; intros E; try discriminate.
  injection E as <-. discriminate.
Qed.

(** A keyword without the character [q] cannot lie across an occurrence
    of [q]. *)
Lemma prefix_before (q : ascii) (k a b : string) :
  has_char q k = false ->
  prefix k (a ++ String q b) = prefix k a.
Proof.
  revert k. induction a as [|x a IH]; intros [|c k] H; simpl in *; try reflexivity.
  - apply orb_false_iff in H as [Hc _]. apply Ascii.eqb_neq in Hc.
    destruct (ascii_dec c q); [contradiction | reflexivity].
  - apply orb_false_iff in H as [_ Hk].
    destruct (ascii_dec c x); [now apply IH | reflexivity].
Qed.

Lemma contains_across (q : ascii) (k a b : string) :
  has_char q k = false ->
  contains k (a ++ String q b) = contains k a || contains k b.
Proof.
  intros H. induction a as [|x a IH].
  - change (EmptyString ++ String q b) with (String q b).
    change (contains k (String q b)) with (prefix k (String q b) || contains k b).
    pose proof (prefix_before q k EmptyString b H) as P.
    change (EmptyString ++ String q b) with (String q b) in P. rewrite P.
    destruct k; reflexivity.
  - change (contains k (String x a ++ String q b))
      with (prefix k (String x a ++ String q b) || contains k (a ++ String q b)).
    change (contains k (String x a)) with (prefix k (String x a) || contains k a).
    rewrite prefix_before, IH by assumption.
    now rewrite orb_assoc.
Qed.

End StringFacts.

(* ================================================================= *)
(** ** Pieces, tokens and occurrences *)

Section PieceFacts.

Lemma render_pieces_app (ps qs : list piece) :
  render_pieces (ps ++ qs) = render_pieces ps ++ render_pieces qs.
Proof.
  induction ps as [|p ps IH]; simpl; [reflexivity|].
  now rewrite IH, append_assoc.
Qed.

Lemma values_app (ps qs : list piece) : values (ps ++ qs) = (values ps ++ values qs)%list.
Proof.
  induction ps as [|[t|v] ps IH]; simpl; [reflexivity | assumption | now rewrite IH].
Qed.

Lemma tokenize_code (x s acc : string) :
  has_char quote_char x = false ->
  tokenize_from (InCode acc) (x ++ s) = tokenize_from (InCode (acc ++ x)) s.
Proof.
  revert acc. induction x as [|c x IH]; intros acc H; simpl.
  - now rewrite append_empty_r.
  - simpl in H. apply orb_false_iff in H as [Hc Hx].
    rewrite Hc, IH by assumption. now rewrite append_assoc.
Qed.

Lemma tokenize_plain (x s acc : string) :
  plain x = true ->
  tokenize_from (InString acc) (x ++ s) = tokenize_from (InString (acc ++ x)) s.
Proof.
  unfold plain. revert acc. induction x as [|c x IH]; intros acc H; simpl.
  - now rewrite append_empty_r.
  - simpl in H. rewrite !negb_orb in H.
    apply andb_true_iff in H as [H1 H2].
    apply andb_true_iff in H1 as [Hq Hx], H2 as [Hb Hy].
    apply negb_true_iff in Hq, Hb. rewrite Hq, Hb.
    rewrite IH by (now rewrite Hx, Hy). now rewrite append_assoc.
Qed.

(** A rendering whose fixed text has no quote and whose values are plain
    tokenizes into its pieces. *)
Lemma tokenize_pieces (ps : list piece) (acc : string) :
  forallb quote_free (chunks ps) = true ->
  forallb plain (values ps) = true ->
  tokenize_from (InCode acc) (render_pieces ps) = Some (tokens_from acc ps).
Proof.
  revert acc. induction ps as [|[t|v] ps IH]; intros acc Hc Hv.
  - reflexivity.
  - simpl in Hc. apply andb_true_iff in Hc as [Ht Hc].
    apply negb_true_iff in Ht.
    simpl. rewrite tokenize_code by assumption. now apply IH.
  - simpl in Hv. apply andb_true_iff in Hv as [Hp Hv].
    change (render_pieces (Spliced v :: ps)) with ((dq ++ v ++ dq) ++ render_pieces ps).
    rewrite !append_assoc.
    change (tokenize_from (InCode acc) (dq ++ v ++ dq ++ render_pieces ps))
      with (emit (Code acc)
              (tokenize_from (InString EmptyString) (v ++ dq ++ render_pieces ps))).
    rewrite tokenize_plain by assumption.
    change (tokenize_from (InString (EmptyString ++ v)) (dq ++ render_pieces ps))
      with (emit (Lit v) (tokenize_from (InCode EmptyString) (render_pieces ps))).
    now rewrite IH.
Qed.

Lemma literals_tokens_from (ps : list piece) (acc : string) :
  literals (tokens_from acc ps) = values ps.
Proof.
  revert acc. induction ps as [|[t|v] ps IH]; intros acc; simpl;
    [reflexivity | apply IH | now rewrite IH].
Qed.

(** A keyword without a quote occurs in a rendering exactly when it occurs
    in one of its segments. *)
Lemma contains_pieces (k : string) (ps : list piece) (acc : string) :
  has_char quote_char k = false ->
  contains k (acc ++ render_pieces ps) = existsb (contains k) (segments_from acc ps).
Proof.
  intros H. revert acc. induction ps as [|[t|v] ps IH]; intros acc.
  - simpl. now rewrite append_empty_r, orb_false_r.
  - simpl. rewrite <- append_assoc. apply IH.
  - change (render_pieces (Spliced v :: ps)) with ((dq ++ v ++ dq) ++ render_pieces ps).
    rewrite !append_assoc.
    change (dq ++ v ++ dq ++ render_pieces ps)
      with (String quote_char (v ++ String quote_char (render_pieces ps))).
    rewrite !contains_across by assumption.
    simpl. now rewrite <- (IH EmptyString).
Qed.

End PieceFacts.

(* ================================================================= *)
(** ** The builders write pieces *)

Section Builders.

Lemma chunks_app (ps qs : list piece) : chunks (ps ++ qs) = (chunks ps ++ chunks qs)%list.
Proof.
  induction ps as [|[t|v] ps IH]; simpl; [reflexivity | now rewrite IH | assumption].
Qed.

Lemma tags_are_pieces (t : string) (ts : list string) :
  dq ++ join (dq ++ ", " ++ dq) (t :: ts) ++ dq = render_pieces (tag_pieces (t :: ts)).
Proof.
  revert t. induction ts as [|t' ts IH]; intros t.
  - simpl. now rewrite append_empty_r.
  - rewrite join_cons.
    change (tag_pieces (t :: t' :: ts))
      with (Spliced t :: Fixed ", " :: tag_pieces (t' :: ts)).
    cbn [render_pieces render_piece]. rewrite <- IH.
    now rewrite !append_assoc.
Qed.

Lemma values_tag_pieces (t : string) (ts : list string) :
  values (tag_pieces (t :: ts)) = t :: ts.
Proof.
  simpl. f_equal. induction ts as [|x ts IH]; simpl; [reflexivity | now rewrite IH].
Qed.

Lemma chunks_tag_pieces (t : string) (ts : list string) :
  forallb quote_free (chunks (tag_pieces (t :: ts))) = true.
Proof.
  simpl. induction ts as [|x ts IH]; simpl; [reflexivity | assumption].
Qed.

Ltac normalize_script :=
  rewrite ?render_pieces_app; cbn [render_pieces render_piece];
  rewrite <- ?tags_are_pieces;
  cbn [iadd_last extend List.app];
  rewrite ?join_cons, ?join_one, ?append_assoc, ?append_empty_r, ?append_empty_l;
  reflexivity.

Lemma add_task_is_pieces title notes due_date area project tags :
  add_task_script title notes due_date area project tags
  = render_pieces (add_task_pieces title notes due_date area project tags).
Proof.
  unfold add_task_script, add_task_pieces, clause.
  destruct (truthy notes) as [n|], (truthy due_date) as [d|], (truthy area) as [a|],
    (truthy project) as [p|];
    (destruct (truthy_list tags) as [[|t ts]|] eqn:Et;
     [ now apply truthy_list_nonempty in Et | | ]);
    normalize_script.
Qed.

Lemma add_project_is_pieces title notes area when :
  add_project_script title notes area when
  = render_pieces (add_project_pieces title notes area when).
Proof.
  unfold add_project_script, add_project_pieces, clause.
  destruct (truthy notes) as [n|], (truthy area) as [a|], (String.eqb when "today");
    normalize_script.
Qed.

Lemma update_task_is_pieces task_identifier title notes due_date tags :
  update_task_script task_identifier title notes due_date tags
  = render_pieces (update_task_pieces task_identifier title notes due_date).
Proof.
  unfold update_task_script, update_task_pieces, statement.
  destruct (truthy title) as [t|], (truthy notes) as [n|], (truthy due_date) as [d|];
    normalize_script.
Qed.

Lemma complete_task_is_pieces task_identifier :
  complete_task_script task_identifier = render_pieces (complete_task_pieces task_identifier).
Proof.
  unfold complete_task_script, complete_task_pieces, block.
  normalize_script.
Qed.

Lemma values_clause (o : option string) (label close : string) :
  values (clause o label close) = present o.
Proof. unfold clause, present. now destruct (truthy o). Qed.

Lemma chunks_clause (o : option string) (label close : string) :
  quote_free label = true -> quote_free close = true ->
  forallb quote_free (chunks (clause o label close)) = true.
Proof.
  intros Hl Hc. unfold clause. destruct (truthy o); simpl; [|reflexivity].
  now rewrite Hl, Hc.
Qed.

Lemma values_statement (o : option string) (before after msg : string) :
  values (statement o before after msg) = with_message o msg.
Proof. unfold statement, with_message. now destruct (truthy o). Qed.

Lemma chunks_statement (o : option string) (before after msg : string) :
  quote_free before = true -> quote_free after = true ->
  forallb quote_free (chunks (statement o before after msg)) = true.
Proof.
  intros Hb Ha. unfold statement. destruct (truthy o); simpl; [|reflexivity].
  now rewrite Hb, Ha.
Qed.

Lemma values_add_task title notes due_date area project tags :
  values (add_task_pieces title notes due_date area project tags)
  = add_task_values title notes due_date area project tags.
Proof.
  unfold add_task_pieces, add_task_values, present_list.
  rewrite !values_app, !values_clause.
  destruct (truthy_list tags) as [[|t ts]|] eqn:Et.
  - now apply truthy_list_nonempty in Et.
  - rewrite !values_app, values_tag_pieces. simpl. now rewrite !app_nil_r.
  - simpl. now rewrite !app_nil_r.
Qed.

Lemma chunks_add_task title notes due_date area project tags :
  forallb quote_free (chunks (add_task_pieces title notes due_date area project tags)) = true.
Proof.
  unfold add_task_pieces.
  rewrite !chunks_app, !forallb_app, !chunks_clause by reflexivity.
  destruct (truthy_list tags) as [[|t ts]|] eqn:Et.
  - now apply truthy_list_nonempty in Et.
  - rewrite !chunks_app, !forallb_app, chunks_tag_pieces. reflexivity.
  - reflexivity.
Qed.

Lemma values_update_task task_identifier title notes due_date :
  values (update_task_pieces task_identifier title notes due_date)
  = update_task_values task_identifier title notes due_date.
Proof.
  unfold update_task_pieces, update_task_values.
  rewrite !values_app, !values_statement. simpl. now rewrite !app_nil_r.
Qed.

Lemma chunks_update_task task_identifier title notes due_date :
  forallb quote_free (chunks (update_task_pieces task_identifier title notes due_date)) = true.
Proof.
  unfold update_task_pieces.
  rewrite !chunks_app, !forallb_app, !chunks_statement by reflexivity.
  reflexivity.
Qed.

Lemma script_is_pieces (w : written) : script_of w = render_pieces (pieces_of w).
Proof.
  destruct w; cbn [script_of pieces_of]; [apply add_task_is_pieces | apply update_task_is_pieces].
Qed.

Lemma values_pieces_of (w : written) : values (pieces_of w) = values_of w.
Proof.
  destruct w; cbn [values_of pieces_of]; [apply values_add_task | apply values_update_task].
Qed.

Lemma chunks_pieces_of (w : written) : forallb quote_free (chunks (pieces_of w)) = true.
Proof.
  destruct w; cbn [pieces_of]; [apply chunks_add_task | apply chunks_update_task].
Qed.

End Builders.

(* ================================================================= *)
(** ** Reading back the strings of a script *)

(** C1, as amended.  The builders splice every value verbatim between two
    double quotes and escape nothing.  For a request whose values (title,
    notes and the other spliced strings) contain neither a double quote
    nor a backslash, reading the script of [add_task] or [update_task]
    back by the string-literal rule yields exactly the original strings,
    in order. *)
Theorem round_trip_of_plain_values (w : written) :
  all_plain (values_of w) = true ->
  string_literals (script_of w) = Some (values_of w).
Proof.
  intros H. unfold string_literals, tokenize.
  rewrite script_is_pieces, tokenize_pieces.
  - simpl. now rewrite literals_tokens_from, values_pieces_of.
  - apply chunks_pieces_of.
  - now rewrite values_pieces_of.
Qed.

Lemma round_trip_of_plain_values_witness :
  string_literals
    (script_of (Added "Buy milk" (Some "2% fat") (Some "2025-01-01") None None
                  (Some ["errand"; "home"])))
  = Some ["Things3"; "Buy milk"; "2% fat"; "2025-01-01"; "errand"; "home"].
Proof.
  apply (round_trip_of_plain_values
           (Added "Buy milk" (Some "2% fat") (Some "2025-01-01") None None
              (Some ["errand"; "home"]))).
  reflexivity.
Defined.

(** C1, as stated, fails: a title that holds a quoted word is read back as
    two other strings, because its first quote ends the literal. *)
Lemma quoted_title_not_read_back :
  let title := "say " ++ dq ++ "hi" ++ dq in
  has_char quote_char title = true /\
  string_literals (script_of (Added title None None None None None))
  = Some ["Things3"; "say "; EmptyString] /\
  string_literals (script_of (Added title None None None None None))
  <> Some (values_of (Added title None None None None None)).
Proof.
  cbv zeta. split; [reflexivity|]. split; [reflexivity|].
  vm_compute. discriminate.
Qed.

(* ================================================================= *)
(** ** Clauses of absent fields *)

Section Clauses.

Lemma existsb_segments (k : string) (ps : list piece) (acc : string) :
  existsb (contains k) (segments_from acc ps)
  = existsb (contains k) (code_segments_from acc ps) || existsb (contains k) (values ps).
Proof.
  revert acc. induction ps as [|[t|v] ps IH]; intros acc; simpl.
  - now rewrite !orb_false_r.
  - apply IH.
  - rewrite IH.
    destruct (contains k acc), (contains k v),
      (existsb (contains k) (code_segments_from EmptyString ps)); reflexivity.
Qed.

Lemma free_of_existsb (k : string) (l : list string) :
  free_of k l = true -> existsb (contains k) l = false.
Proof.
  unfold free_of. induction l as [|v l IH]; simpl; [reflexivity|].
  intros H. apply andb_true_iff in H as [Hv Hl].
  apply negb_true_iff in Hv. now rewrite Hv, IH.
Qed.

(** No keyword that is free of quotes occurs in a rendering unless it
    occurs in the fixed text or in a value. *)
Lemma contains_render_false (k : string) (ps : list piece) :
  has_char quote_char k = false ->
  existsb (contains k) (code_segments_from EmptyString ps) = false ->
  free_of k (values ps) = true ->
  contains k (render_pieces ps) = false.
Proof.
  intros Hk Hc Hv.
  change (render_pieces ps) with (EmptyString ++ render_pieces ps).
  rewrite contains_pieces, existsb_segments, Hc by assumption.
  now apply free_of_existsb.
Qed.

Lemma code_segments_tags (ts : list string) (rest : list piece) :
  code_segments_from EmptyString (flat_map (fun x => [Fixed ", "; Spliced x]) ts ++ rest)
  = (map (fun _ => ", ") ts ++ code_segments_from EmptyString rest)%list.
Proof.
  induction ts as [|x ts IH]; simpl; [reflexivity | now rewrite IH].
Qed.

Lemma code_segments_tags_free (k acc t : string) (ts : list string) (rest : list piece) :
  contains k acc = false ->
  contains k ", " = false ->
  existsb (contains k) (code_segments_from EmptyString rest) = false ->
  existsb (contains k) (code_segments_from acc (tag_pieces (t :: ts) ++ rest)) = false.
Proof.
  intros Ha Hs Hr.
  cbn [tag_pieces List.app code_segments_from existsb].
  rewrite Ha, code_segments_tags, existsb_app, Hr, orb_false_r. cbn [orb].
  induction ts as [|x ts IH]; cbn [map existsb]; [reflexivity | now rewrite Hs].
Qed.

Lemma keyword_quote_free (f : field) : has_char quote_char (keyword f) = false.
Proof. destruct f; reflexivity. Qed.

Lemma render_is_pieces (c : creation) : render c = render_pieces (pieces_of_creation c).
Proof.
  destruct c; cbn [render pieces_of_creation];
    [apply add_task_is_pieces | apply add_project_is_pieces].
Qed.

Lemma values_add_project title notes area when :
  values (add_project_pieces title notes area when)
  = ("Things3" :: title :: present notes ++ present area)%list.
Proof.
  unfold add_project_pieces.
  rewrite !values_app, !values_clause.
  destruct (String.eqb when "today"); simpl; now rewrite !app_nil_r.
Qed.

Lemma values_of_creation (c : creation) :
  values (pieces_of_creation c) = "Things3" :: supplied c.
Proof.
  destruct c; cbn [pieces_of_creation supplied];
    [apply values_add_task | apply values_add_project].
Qed.

Ltac absent_cases :=
  repeat match goal with
         | |- context [truthy ?o] =>
             let v := fresh "v" in destruct (truthy o) as [v|]
         | |- context [truthy_list ?o] =>
             let t := fresh "t" in
             let ts := fresh "ts" in
             let E := fresh "E" in
             destruct (truthy_list o) as [[|t ts]|] eqn:E;
             [ now apply truthy_list_nonempty in E | | ]
         end.

Lemma code_of_creation_free (c : creation) (f : field) :
  absent f c = true ->
  existsb (contains (keyword f)) (code_segments_from EmptyString (pieces_of_creation c))
  = false.
Proof.
  intros H. destruct c as [title notes due_date area project tags | title notes area when].
  - unfold pieces_of_creation, add_task_pieces, clause.
    destruct f; cbn [absent] in H; revert H; absent_cases; intros H;
      try discriminate H;
      rewrite <- ?app_assoc; cbn [List.app code_segments_from existsb];
      rewrite ?code_segments_tags_free by reflexivity; reflexivity.
  - unfold pieces_of_creation, add_project_pieces, clause.
    destruct f; cbn [absent] in H; revert H; absent_cases; intros H;
      try discriminate H;
      destruct (String.eqb when "today"); reflexivity.
Qed.

End Clauses.

(** C2, as amended.  For every request to [add_task] or [add_project] in
    which an optional field (notes, due date, area, project, tags) is
    absent or empty, the builder writes no clause for it: the keyword of
    the field occurs in the script only if it occurs in one of the values
    the request supplies.  So when no supplied value (title, the other
    fields, the tags) contains the keyword, the script does not contain
    it. *)
Theorem absent_field_has_no_clause (c : creation) (f : field) :
  absent f c = true ->
  free_of (keyword f) (supplied c) = true ->
  contains (keyword f) (render c) = false.
Proof.
  intros Habs Hfree. rewrite render_is_pieces.
  apply contains_render_false.
  - apply keyword_quote_free.
  - now apply code_of_creation_free.
  - rewrite values_of_creation.
    change (free_of (keyword f) ("Things3" :: supplied c))
      with (negb (contains (keyword f) "Things3") && free_of (keyword f) (supplied c)).
    rewrite Hfree. now destruct f.
Qed.

Lemma absent_field_has_no_clause_witness :
  contains "notes:"
    (add_task_script "Buy milk" (Some EmptyString) (Some "2025-01-01") None None (Some []))
  = false.
Proof.
  apply (absent_field_has_no_clause
           (AddTask "Buy milk" (Some EmptyString) (Some "2025-01-01") None None (Some []))
           Notes); reflexivity.
Defined.

(** C2, as stated, fails: with no notes given, a title that holds a quote
    makes the script the very script of a request with notes, clause and
    keyword included. *)
Lemma notes_clause_without_notes :
  let title := "x" ++ dq ++ ", notes:" ++ dq ++ "y" in
  absent Notes (AddTask title None None None None None) = true /\
  render (AddTask title None None None None None)
  = render (AddTask "x" (Some "y") None None None None) /\
  contains (keyword Notes) (render (AddTask title None None None None None)) = true.
Proof.
  cbv zeta. repeat split; reflexivity.
Qed.

(* ================================================================= *)
(** ** The parsers *)

Section Parsers.

Lemma split_from_nonempty (sep : string) (k : nat) (s : string) : split_from sep k s <> [].
Proof.
  revert k. induction s as [|c s IH]; intros k; cbn [split_from]; [discriminate|].
  destruct k; [|apply IH].
  destruct (prefix sep (String c s)); [discriminate|].
  destruct (split_from sep 0 s); discriminate.
Qed.

(** A text without the separator is one field, so a line that has two
    fields or more contains the separator. *)
Lemma split_without_separator (sep s : string) :
  contains sep s = false -> split sep s = [s].
Proof.
  unfold split. induction s as [|c s IH]; intros H; [reflexivity|].
  change (contains sep (String c s)) with (prefix sep (String c s) || contains sep s) in H.
  apply orb_false_iff in H as [Hp Hc].
  cbn [split_from]. rewrite Hp, (IH Hc). reflexivity.
Qed.

Lemma has_fields_contains (n : nat) (line : string) :
  (2 <= n)%nat -> has_fields n (split "|||" line) = true -> contains "|||" line = true.
Proof.
  intros Hn H. destruct (contains "|||" line) eqn:E; [reflexivity|].
  rewrite (split_without_separator _ _ E) in H.
  unfold has_fields in H. apply Nat.leb_le in H. simpl in H. lia.
Qed.

Lemma getitem_nth (parts : list string) (i : nat) :
  (i < List.length parts)%nat -> getitem parts i = Ok (nth i parts EmptyString).
Proof.
  intros H. unfold getitem.
  destruct (nth_error parts i) eqn:E.
  - now rewrite (nth_error_nth _ _ _ E).
  - apply nth_error_None in E. lia.
Qed.

Lemma list_tasks_loop_spec (lines : list string) (tasks : list task_dict) :
  list_tasks_loop lines tasks
  = Ok (tasks ++ map task_of_parts (filter (has_fields 6) (map (split "|||") lines)))%list.
Proof.
  revert tasks. induction lines as [|line lines IH]; intros tasks.
  - simpl. now rewrite app_nil_r.
  - cbn [list_tasks_loop map filter].
    fold (has_fields 6 (split "|||" line)).
    destruct (has_fields 6 (split "|||" line)) eqn:E.
    + rewrite (has_fields_contains 6 line) by (lia || assumption).
      unfold has_fields in E. apply Nat.leb_le in E.
      rewrite !getitem_nth by lia. cbn [bind].
      rewrite IH. unfold extend. cbn [map]. now rewrite <- app_assoc.
    + destruct (contains "|||" line); apply IH.
Qed.

Lemma items_loop_spec (lines : list string) (items : list item_dict) :
  items_loop lines items
  = Ok (items ++ map item_of_parts (filter (has_fields 3) (map (split "|||") lines)))%list.
Proof.
  revert items. induction lines as [|line lines IH]; intros items.
  - simpl. now rewrite app_nil_r.
  - cbn [items_loop map filter].
    fold (has_fields 3 (split "|||" line)).
    destruct (has_fields 3 (split "|||" line)) eqn:E.
    + rewrite (has_fields_contains 3 line) by (lia || assumption).
      unfold has_fields in E. apply Nat.leb_le in E.
      rewrite !getitem_nth by lia. cbn [bind].
      rewrite IH. unfold extend. cbn [map]. now rewrite <- app_assoc.
    + destruct (contains "|||" line); apply IH.
Qed.

Lemma parse_list_tasks_spec (raw : string) :
  parse_list_tasks raw = Ok (map task_of_parts (filter (has_fields 6) (records raw))).
Proof.
  unfold parse_list_tasks, records.
  destruct (String.eqb_spec raw EmptyString) as [->|_]; [reflexivity|].
  apply list_tasks_loop_spec.
Qed.

Lemma parse_items_spec (raw : string) :
  (if String.eqb raw EmptyString then Ok [] else items_loop (split "," raw) [])
  = Ok (map item_of_parts (filter (has_fields 3) (records raw))).
Proof.
  unfold records.
  destruct (String.eqb_spec raw EmptyString) as [->|_]; [reflexivity|].
  apply items_loop_spec.
Qed.

Lemma or_empty_not_sentinel (x : string) : or_empty x <> missing_value.
Proof.
  unfold or_empty. destruct (String.eqb_spec (strip x) missing_value) as [E|E]; simpl.
  - discriminate.
  - exact E.
Qed.

Lemma or_none_not_sentinel (x : string) : or_none x <> Some missing_value.
Proof.
  unfold or_none. destruct (String.eqb_spec (strip x) missing_value) as [E|E]; simpl.
  - discriminate.
  - intros [= H]. now apply E.
Qed.

Lemma or_empty_sentinel (x : string) : strip x = missing_value -> or_empty x = EmptyString.
Proof. unfold or_empty. intros ->. reflexivity. Qed.

Lemma or_none_sentinel (x : string) : strip x = missing_value -> or_none x = None.
Proof. unfold or_none. intros ->. reflexivity. Qed.

Lemma task_of_parts_sentinel_free (parts : list string) : sentinel_free (task_of_parts parts).
Proof.
  repeat split; simpl;
    [apply or_empty_not_sentinel | apply or_none_not_sentinel | apply or_none_not_sentinel].
Qed.

Lemma prefix_char (q c : ascii) (s : string) :
  prefix (String q EmptyString) (String c s) = Ascii.eqb c q.
Proof.
  cbn [prefix]. destruct (ascii_dec q c) as [->|N].
  - rewrite Ascii.eqb_refl. now destruct s.
  - symmetry. apply Ascii.eqb_neq. congruence.
Qed.

Lemma contains_char (q : ascii) (s : string) :
  has_char q s = false -> contains (String q EmptyString) s = false.
Proof.
  induction s as [|c s IH]; intros H; [reflexivity|].
  simpl in H. apply orb_false_iff in H as [Hc Hs].
  change (contains (String q EmptyString) (String c s))
    with (prefix (String q EmptyString) (String c s) || contains (String q EmptyString) s).
  now rewrite prefix_char, Hc, IH.
Qed.

Lemma split_char_field (q : ascii) (field rest : string) :
  has_char q field = false ->
  split (String q EmptyString) (field ++ String q rest)
  = field :: split (String q EmptyString) rest.
Proof.
  unfold split. induction field as [|c field IH]; intros H.
  - change (EmptyString ++ String q rest) with (String q rest).
    cbn [split_from]. rewrite prefix_char, Ascii.eqb_refl. reflexivity.
  - simpl in H. apply orb_false_iff in H as [Hc Hf].
    change (String c field ++ String q rest) with (String c (field ++ String q rest)).
    cbn [split_from]. rewrite prefix_char, Hc, (IH Hf). reflexivity.
Qed.

(** Records that hold no comma, joined by commas, are split back. *)
Lemma split_comma_join (line : string) (lines : list string) :
  forallb (fun l => negb (has_char "," l)) (line :: lines) = true ->
  split "," (join "," (line :: lines)) = line :: lines.
Proof.
  revert line. induction lines as [|l' lines IH]; intros line H.
  - simpl in H. rewrite andb_true_r in H. apply negb_true_iff in H.
    rewrite join_one. apply split_without_separator. now apply contains_char.
  - change (forallb (fun l => negb (has_char "," l)) (line :: l' :: lines))
      with (negb (has_char "," line)
            && forallb (fun l => negb (has_char "," l)) (l' :: lines)) in H.
    apply andb_true_iff in H as [Hl H]. apply negb_true_iff in Hl.
    rewrite join_cons.
    change ("," ++ join "," (l' :: lines)) with (String "," (join "," (l' :: lines))).
    rewrite split_char_field by assumption. now rewrite IH.
Qed.

End Parsers.

(** C3, as amended.  In [list_tasks] the notes, due-date and creation-date
    positions of a record are mapped: a field whose trimmed text is the
    sentinel becomes the empty string (notes) or an absent value (the two
    dates), so no record of the result holds the sentinel there.  (The
    title, id and status positions of [list_tasks], and every position of
    [search_tasks] and [list_projects], are trimmed and passed on.) *)
Theorem sentinel_mapped_in_list_tasks (raw : string) :
  exists recs,
    parse_list_tasks raw = Ok recs /\
    Forall sentinel_free recs /\
    forall parts,
      In parts (records raw) -> has_fields 6 parts = true ->
      In (task_of_parts parts) recs /\
      (strip (nth 2 parts EmptyString) = missing_value ->
       task_notes (task_of_parts parts) = EmptyString) /\
      (strip (nth 3 parts EmptyString) = missing_value ->
       task_due_date (task_of_parts parts) = None) /\
      (strip (nth 4 parts EmptyString) = missing_value ->
       task_creation_date (task_of_parts parts) = None).
Proof.
  exists (map task_of_parts (filter (has_fields 6) (records raw))).
  split; [apply parse_list_tasks_spec|]. split.
  - apply Forall_forall. intros r Hr. apply in_map_iff in Hr as [parts [<- _]].
    apply task_of_parts_sentinel_free.
  - intros parts Hin Hf. split.
    + apply in_map. apply filter_In. now split.
    + repeat split; simpl; intros E;
        [now apply or_empty_sentinel | now apply or_none_sentinel | now apply or_none_sentinel].
Qed.

(** C3, as stated, fails: [search_tasks] passes the sentinel on as the
    title and the status of a record, and [list_tasks] as the title. *)
Lemma sentinel_passes_through :
  parse_search_tasks "missing value|||A1|||missing value"
  = Ok [ {| item_title := missing_value; item_id := "A1"; item_status := missing_value |} ]
  /\ parse_list_tasks "missing value|||A1|||n|||d|||c|||open"
     = Ok [ {| task_title := missing_value; task_id := "A1"; task_notes := "n";
               task_due_date := Some "d"; task_creation_date := Some "c";
               task_status := "open" |} ].
Proof. split; reflexivity. Qed.

(** C4.  For every raw response, each parser returns without raising, and
    what it returns are the records of the lines that have at least the
    expected number of fields (6 for [list_tasks], 3 for [search_tasks]
    and [list_projects]), in order; every other line is dropped.  On the
    empty response each returns no record. *)
Theorem malformed_records_dropped (raw : string) :
  parse_list_tasks raw = Ok (map task_of_parts (filter (has_fields 6) (records raw))) /\
  parse_search_tasks raw = Ok (map item_of_parts (filter (has_fields 3) (records raw))) /\
  parse_list_projects raw = Ok (map item_of_parts (filter (has_fields 3) (records raw))) /\
  parse_list_tasks EmptyString = Ok [] /\
  parse_search_tasks EmptyString = Ok [] /\
  parse_list_projects EmptyString = Ok [].
Proof.
  split; [apply parse_list_tasks_spec|].
  split; [apply parse_items_spec|].
  split; [apply parse_items_spec|].
  repeat split; reflexivity.
Qed.

(* ================================================================= *)
(** ** Lookup by identifier, then by title *)

Section Lookup.

Ltac plain_goal :=
  first [ assumption | reflexivity | apply andb_true_iff; split; plain_goal ].

Lemma codes_tokens_from (ps : list piece) (acc : string) :
  codes (tokens_from acc ps) = code_segments_from acc ps.
Proof.
  revert acc. induction ps as [|[t|v] ps IH]; intros acc; simpl;
    [reflexivity | apply IH | now rewrite IH].
Qed.

Lemma plain_app (a b : string) : plain (a ++ b) = plain a && plain b.
Proof.
  unfold plain. rewrite !has_char_app, !negb_orb.
  destruct (has_char quote_char a), (has_char quote_char b),
    (has_char backslash_char a), (has_char backslash_char b); reflexivity.
Qed.

(** A script that tokenizes into the pieces of a template runs as the
    program of the template on the values of the pieces. *)
Lemma run_script_pieces (template : string) (program : list string -> script unit)
    (ps : list piece) (app : things) :
  forallb quote_free (chunks ps) = true ->
  forallb plain (values ps) = true ->
  code_segments_from EmptyString ps = skeleton template ->
  run_script template program (render_pieces ps) app
  = let (o, app') := program (values ps) app in Ran o app'.
Proof.
  intros Hc Hv Hs. unfold run_script, tokenize.
  rewrite tokenize_pieces by assumption.
  rewrite codes_tokens_from, literals_tokens_from, Hs.
  destruct (list_eq_dec string_dec (skeleton template) (skeleton template));
    [reflexivity | contradiction].
Qed.

Lemma complete_task_not_found (x : string) (app : things) :
  plain x = true -> no_such_to_do x app ->
  run_complete_task (complete_task_script x) app
  = Ran (Returned ("Task not found: " ++ x)) (ask (ToDoNamed x) (ask (ToDoById x) app)).
Proof.
  intros Hp [Hid Hname]. unfold run_complete_task.
  rewrite (complete_task_is_pieces x), run_script_pieces.
  - cbn [complete_task_pieces values complete_task_literals].
    unfold complete_task_program, try_, seq, to_do_id, to_do_named, return_.
    rewrite Hid. cbn [to_dos ask]. rewrite Hname. reflexivity.
  - reflexivity.
  - cbn [complete_task_pieces values forallb]. rewrite plain_app, Hp. reflexivity.
  - vm_compute. reflexivity.
Qed.

Lemma update_task_not_found (x : string) (title notes due_date : option string)
    (tags : option (list string)) (app : things) :
  all_plain (x :: present title ++ present notes ++ present due_date) = true ->
  no_such_to_do x app ->
  run_update_task title notes due_date (update_task_script x title notes due_date tags) app
  = Ran (Returned "Task not found") (ask (ToDoNamed x) (ask (ToDoById x) app)).
Proof.
  intros Hp [Hid Hname]. unfold run_update_task.
  rewrite (update_task_is_pieces x title notes due_date tags), run_script_pieces.
  - rewrite values_update_task. unfold update_task_values, update_task_literals.
    cbn [List.app].
    destruct (take_pair title _) as [t l2], (take_pair notes l2) as [n l3],
      (take_pair due_date l3) as [d l4].
    unfold update_task_program, try_, seq, to_do_id, to_do_named, return_.
    rewrite Hid. cbn [to_dos ask]. rewrite Hname. reflexivity.
  - apply chunks_update_task.
  - rewrite values_update_task. unfold update_task_values, with_message.
    unfold all_plain, present in Hp.
    destruct (truthy title), (truthy notes), (truthy due_date);
      cbn [forallb List.app] in *;
      repeat match goal with
             | H : (_ && _)%bool = true |- _ => apply andb_true_iff in H as [? H]
             end;
      plain_goal.
  - unfold update_task_pieces, statement, placeholder.
    destruct (truthy title), (truthy notes), (truthy due_date); vm_compute; reflexivity.
Qed.

End Lookup.

(** C5, as amended.  For every request to [complete_task] or
    [update_task] whose identifier (and, for [update_task], whose other
    spliced values) contains neither a double quote nor a backslash, and
    for every state of the application in which no to-do has the
    identifier as its id and none has it as its name: the script asks for
    the to-do by id first, then by name, and returns the not-found
    message as its result, not an error; the message differs from every
    message the script returns when the task is found. *)
Theorem not_found_is_a_result (r : by_identifier) (app : things) :
  all_plain (lookup_values r) = true ->
  no_such_to_do (identifier_of r) app ->
  run_lookup r (lookup_script r) app
  = Ran (Returned (not_found_message r))
      (ask (ToDoNamed (identifier_of r)) (ask (ToDoById (identifier_of r)) app))
  /\ requests (ask (ToDoNamed (identifier_of r)) (ask (ToDoById (identifier_of r)) app))
     = (requests app ++ [ ToDoById (identifier_of r); ToDoNamed (identifier_of r) ])%list
  /\ ~ In (not_found_message r) (found_messages r).
Proof.
  intros Hp Hno. split; [|split].
  - destruct r as [x | x title notes due_date tags];
      cbn [run_lookup lookup_script not_found_message identifier_of lookup_values] in *.
    + apply complete_task_not_found; [|assumption].
      unfold all_plain in Hp. cbn [forallb] in Hp. now rewrite andb_true_r in Hp.
    + now apply update_task_not_found.
  - cbn [requests ask]. now rewrite <- app_assoc.
  - destruct r; cbn [not_found_message found_messages In];
      intros H; repeat (destruct H as [H|H]; [discriminate H|]); exact H.
Qed.

Lemma not_found_is_a_result_witness :
  run_lookup (Completing "Z9") (lookup_script (Completing "Z9"))
    {| to_dos := [ sample_to_do "Buy milk" "A1" ]; to_dos_of_list := fun _ => [];
       date := fun _ => None; requests := [] |}
  = Ran (Returned "Task not found: Z9")
      {| to_dos := [ sample_to_do "Buy milk" "A1" ]; to_dos_of_list := fun _ => [];
         date := fun _ => None; requests := [ ToDoById "Z9"; ToDoNamed "Z9" ] |}.
Proof.
  apply (not_found_is_a_result (Completing "Z9")
           {| to_dos := [ sample_to_do "Buy milk" "A1" ]; to_dos_of_list := fun _ => [];
              date := fun _ => None; requests := [] |}).
  - reflexivity.
  - split; reflexivity.
Defined.

(** C5, as stated, fails: for an identifier that holds a double quote
    (and that no to-do has as id or as name) the text built is not a
    script, the process fails, and the answer is the generic failure of
    the invoker, not the not-found message. *)
Lemma quoted_identifier_is_a_fault :
  let x := "a" ++ dq ++ "b" in
  no_such_to_do x no_to_dos
  /\ run_lookup (Completing x) (lookup_script (Completing x)) no_to_dos = NotAScript
  /\ handle_call_tool (osascript_complete_task no_to_dos) "complete_task"
       (Some (task_id_only x))
     = reply ("Error executing complete_task: "
              ++ "Failed to execute AppleScript: AppleScript error: syntax error")
  /\ handle_call_tool (osascript_complete_task no_to_dos) "complete_task"
       (Some (task_id_only "ab"))
     = reply "Task not found: ab".
Proof.
  cbv zeta. split; [split; reflexivity|].
  split; [vm_compute; reflexivity|].
  split; vm_compute; reflexivity.
Qed.

(* ================================================================= *)
(** ** The process invoker *)

Section Invoker.

Variable subprocess_run : list string -> result CompletedProcess.

Lemma execute_applescript_eq (script : string) :
  execute_applescript subprocess_run script
  = match subprocess_run [ "osascript"; "-e"; script ] with
    | Ok p =>
        if (returncode p =? 0)%Z
        then Ok (strip (stdout p))
        else Raise (Exception
                      ("Failed to execute AppleScript: AppleScript error: " ++ stderr p))
    | Raise TimeoutExpired => Raise (Exception "AppleScript execution timed out")
    | Raise e => Raise (Exception ("Failed to execute AppleScript: " ++ str_exn e))
    end.
Proof.
  unfold execute_applescript. cbv zeta.
  destruct (subprocess_run _) as [p|e]; cbn [bind].
  - destruct (returncode p =? 0)%Z; reflexivity.
  - destruct e; reflexivity.
Qed.

Lemma execute_applescript_raises_exception (script : string) (e : exn) :
  execute_applescript subprocess_run script = Raise e -> exists msg, e = Exception msg.
Proof.
  rewrite execute_applescript_eq.
  destruct (subprocess_run _) as [p|[]]; try destruct (returncode p =? 0)%Z;
    intros [= <-]; eexists; reflexivity.
Qed.

Lemma execute_applescript_outcome (script : string) :
  execute_applescript subprocess_run script
  = outcome_of (subprocess_run [ "osascript"; "-e"; script ]).
Proof. apply execute_applescript_eq. Qed.

End Invoker.

Section Escaping.

Lemma split_apos_cons (c : ascii) (s : string) :
  split apos (String c s)
  = if Ascii.eqb c "'"%char then EmptyString :: split apos s
    else match split apos s with
         | field :: fields => String c field :: fields
         | [] => [ String c EmptyString ]
         end.
Proof.
  unfold split, apos, chr. change (ascii_of_nat 39) with "'"%char.
  cbn [split_from]. rewrite prefix_char. cbn [String.length Nat.sub].
  destruct (Ascii.eqb c "'"%char); reflexivity.
Qed.

Lemma join_string_cons (sep : string) (c : ascii) (field : string) (fields : list string) :
  join sep (String c field :: fields) = String c (join sep (field :: fields)).
Proof.
  destruct fields as [|g fields].
  - now rewrite !join_one.
  - now rewrite !join_cons.
Qed.

(** Escaping never shortens a script, and lengthens one that holds an
    apostrophe. *)
Lemma escaped_script_length (script : string) :
  (String.length script <= String.length (escaped_script script))%nat
  /\ (has_char "'"%char script = true ->
      (String.length script < String.length (escaped_script script))%nat).
Proof.
  unfold escaped_script, replace.
  induction script as [|c s [IH1 IH2]]; [split; [reflexivity | discriminate]|].
  rewrite split_apos_cons. cbn [has_char].
  pose proof (split_from_nonempty apos 0 s) as N. fold (split apos s) in N.
  destruct (split apos s) as [|field fields] eqn:E; [now elim N|].
  destruct (Ascii.eqb c "'"%char).
  - rewrite join_cons, append_empty_l.
    unfold apos, dq, chr in *. cbn [append String.length] in *. split; intros; lia.
  - rewrite join_string_cons. cbn [String.length orb]. split; [lia|].
    intros H. specialize (IH2 H). lia.
Qed.

End Escaping.

(** C6, as amended.  For every invocation: when the process exits with a
    code other than zero the invoker fails with an exception whose message
    carries the captured standard-error text; when the process exceeds the
    timeout it fails with the exception of the message "AppleScript
    execution timed out"; when the process exits with code zero it returns
    the trimmed standard output.  Every failure is raised as the generic
    exception class: the two failures are of one class and are told apart
    by their messages, which differ for every standard-error text. *)
Theorem invoker_outcomes (subprocess_run : list string -> result CompletedProcess)
    (script : string) :
  execute_applescript subprocess_run script
  = match subprocess_run [ "osascript"; "-e"; script ] with
    | Ok p =>
        if (returncode p =? 0)%Z
        then Ok (strip (stdout p))
        else Raise (Exception
                      ("Failed to execute AppleScript: AppleScript error: " ++ stderr p))
    | Raise TimeoutExpired => Raise (Exception "AppleScript execution timed out")
    | Raise e => Raise (Exception ("Failed to execute AppleScript: " ++ str_exn e))
    end
  /\ (forall err e : string,
        Exception ("Failed to execute AppleScript: " ++ e)
        <> Exception "AppleScript execution timed out" /\
        Exception ("Failed to execute AppleScript: AppleScript error: " ++ err)
        <> Exception "AppleScript execution timed out")
  /\ (forall e, execute_applescript subprocess_run script = Raise e ->
        class_name e = "Exception").
Proof.
  split; [apply execute_applescript_eq|]. split.
  - intros err e. split; discriminate.
  - intros e H. apply execute_applescript_raises_exception in H as [msg ->]. reflexivity.
Qed.

(** C6, as stated, fails: a process that exits with code 1 and a process
    that exceeds the timeout make the invoker raise exceptions of one and
    the same class, the generic one; there is no timeout error that is
    distinct from an execution error but by its message. *)
Lemma failures_share_one_class :
  execute_applescript (exits_with_error "boom") "return 1"
  = Raise (Exception "Failed to execute AppleScript: AppleScript error: boom")
  /\ execute_applescript exceeds_timeout "return 1"
     = Raise (Exception "AppleScript execution timed out")
  /\ class_name (Exception "Failed to execute AppleScript: AppleScript error: boom")
     = class_name (Exception "AppleScript execution timed out")
  /\ class_name (Exception "AppleScript execution timed out") <> "TimeoutError"
  /\ class_name (Exception "Failed to execute AppleScript: AppleScript error: boom")
     <> "ExecutionError".
Proof.
  split; [reflexivity|]. split; [reflexivity|]. split; [reflexivity|].
  split; discriminate.
Qed.

(** C9.  The invoker hands the script to the process verbatim.  Its
    result is what the process does with the argument vector
    [osascript -e script], turned into a text or an exception: a process
    that reports the text it was given reports the script itself, for
    every script.  The escaped variant that the invoker computes is not
    what is handed over: it is another text as soon as the script holds
    an apostrophe. *)
Theorem script_passed_verbatim (subprocess_run : list string -> result CompletedProcess)
    (script : string) :
  execute_applescript subprocess_run script
  = outcome_of (subprocess_run [ "osascript"; "-e"; script ])
  /\ execute_applescript reports_script script
     = Raise (Exception
                ("Failed to execute AppleScript: AppleScript error: " ++ script))
  /\ (has_char "'"%char script = true ->
      escaped_script script <> script
      /\ execute_applescript reports_script script
         <> Raise (Exception
                     ("Failed to execute AppleScript: AppleScript error: "
                      ++ escaped_script script))).
Proof.
  split; [apply execute_applescript_outcome|]. split.
  - rewrite execute_applescript_outcome. reflexivity.
  - intros H.
    assert (N : escaped_script script <> script).
    { intros E. destruct (escaped_script_length script) as [_ L].
      specialize (L H). rewrite E in L. lia. }
    split; [exact N|].
    rewrite execute_applescript_outcome. cbn [reports_script String.eqb Ascii.eqb Bool.eqb andb outcome_of returncode stderr Z.eqb].
    intros [= E]. apply N. symmetry. exact E.
Qed.

(* ================================================================= *)
(** ** The list names *)

Section ListNames.

Lemma things_list_lower (list_name : string) :
  things_list list_name
  = dict_get list_mapping (lower list_name) ("list " ++ dq ++ "Today" ++ dq).
Proof. reflexivity. Qed.

Lemma dict_get_not_key (d : list (string * string)) (key default : string) :
  ~ In key (map fst d) -> dict_get d key default = default.
Proof.
  induction d as [|[k v] d IH]; intros H; [reflexivity|].
  simpl. destruct (String.eqb_spec k key) as [->|_].
  - exfalso. apply H. now left.
  - apply IH. intros Hin. apply H. now right.
Qed.

End ListNames.

(** C10.  The list name is matched without regard to case: two names with
    the same lower-case form select the same list, each of the six
    recognized names selects its own list in any spelling of its letters,
    and any other name selects the list Today, with no error. *)
Theorem list_name_matching (list_name : string) :
  (forall other, lower other = lower list_name -> things_list other = things_list list_name)
  /\ (lower list_name = "today" -> things_list list_name = "list " ++ dq ++ "Today" ++ dq)
  /\ (lower list_name = "upcoming" ->
      things_list list_name = "list " ++ dq ++ "Upcoming" ++ dq)
  /\ (lower list_name = "anytime" -> things_list list_name = "list " ++ dq ++ "Anytime" ++ dq)
  /\ (lower list_name = "someday" -> things_list list_name = "list " ++ dq ++ "Someday" ++ dq)
  /\ (lower list_name = "inbox" -> things_list list_name = "list " ++ dq ++ "Inbox" ++ dq)
  /\ (lower list_name = "completed" ->
      things_list list_name = "list " ++ dq ++ "Logbook" ++ dq)
  /\ (~ In (lower list_name) [ "today"; "upcoming"; "anytime"; "someday"; "inbox"; "completed" ]
      -> things_list list_name = "list " ++ dq ++ "Today" ++ dq)
  /\ things_list "ToDay" = things_list "today"
  /\ things_list "INBOX" = "list " ++ dq ++ "Inbox" ++ dq
  /\ things_list "next week" = "list " ++ dq ++ "Today" ++ dq.
Proof.
  repeat split; try (rewrite things_list_lower; intros ->; reflexivity).
  - intros other H. now rewrite !things_list_lower, H.
  - intros H. rewrite things_list_lower. now apply dict_get_not_key.
Qed.

(* ================================================================= *)
(** ** The dispatcher *)

Section Dispatcher.

Variable subprocess_run : list string -> result CompletedProcess.

Ltac break_match :=
  match goal with
  | |- context [match ?x with _ => _ end] => destruct x eqn:?
  end.

Lemma call_tool_replies (name : string) (a : arguments) (l : list TextContent) :
  call_tool subprocess_run name a = Ok l -> exists t, l = reply t.
Proof.
  unfold call_tool, bind.
  repeat break_match; intros [= <-]; eexists; reflexivity.
Qed.

Lemma call_tool_unknown (name : string) (a : arguments) :
  ~ In name tools ->
  call_tool subprocess_run name a = Raise (ValueError ("Unknown tool: " ++ name)).
Proof.
  intros H. unfold call_tool.
  repeat match goal with
         | |- context [String.eqb name ?s] =>
             destruct (String.eqb_spec name s) as [->|_];
             [ exfalso; apply H; simpl; tauto | ]
         end.
  reflexivity.
Qed.

Lemma call_tool_missing (name : string) (a : arguments) :
  In name tools -> required name a = false ->
  exists key, call_tool subprocess_run name a = Raise (KeyError key)
              /\ In key [ "title"; "task_id"; "query" ].
Proof.
  intros Hin Hreq. simpl in Hin.
  destruct Hin as [<-|[<-|[<-|[<-|[<-|[<-|[<-|[<-|[]]]]]]]]];
    cbn in Hreq; try discriminate Hreq; apply negb_false_iff in Hreq;
    unfold call_tool; cbn [String.eqb Ascii.eqb Bool.eqb];
    match goal with
    | H : is_none ?o = true |- _ => destruct o; [discriminate H|]
    end;
    eexists; (split; [reflexivity | simpl; tauto]).
Qed.

Lemma call_tool_invoker_failure (name : string) (a : arguments) (msg : string) :
  (forall script, execute_applescript subprocess_run script = Raise (Exception msg)) ->
  In name tools -> required name a = true ->
  call_tool subprocess_run name a = Raise (Exception msg).
Proof.
  intros Hrun Hin Hreq. simpl in Hin.
  destruct Hin as [<-|[<-|[<-|[<-|[<-|[<-|[<-|[<-|[]]]]]]]]];
    cbn in Hreq; try apply negb_true_iff in Hreq;
    unfold call_tool; cbn [String.eqb Ascii.eqb Bool.eqb];
    try match goal with
        | H : is_none ?o = false |- _ => destruct o; [|discriminate H]
        end;
    unfold add_task, list_tasks, complete_task, search_tasks, list_projects, add_project,
      get_daily_overview, update_task;
    cbn [subscript bind]; rewrite Hrun; reflexivity.
Qed.

End Dispatcher.

(** C7.  For every request (operation name and argument bundle, the
    bundle possibly missing) and whatever the external process does, the
    dispatcher returns exactly one text response.  Whenever the operation
    raises, that text is "Error executing", the name of the operation, and
    the text of the exception; this is so for an unknown operation name,
    for a missing required argument, and for a failure of the invoker.
    Nothing is raised past the dispatcher. *)
Theorem one_text_response (subprocess_run : list string -> result CompletedProcess)
    (name : string) (arguments : option arguments) :
  exists t,
    handle_call_tool subprocess_run name arguments = [ {| type := "text"; text := t |} ]
    /\ (forall e,
          call_tool subprocess_run name (bundle arguments) = Raise e ->
          t = "Error executing " ++ name ++ ": " ++ str_exn e)
    /\ (~ In name tools -> t = "Error executing " ++ name ++ ": Unknown tool: " ++ name)
    /\ (In name tools -> required name (bundle arguments) = false ->
        exists key,
          In key [ "title"; "task_id"; "query" ] /\
          t = "Error executing " ++ name ++ ": " ++ apos ++ key ++ apos)
    /\ (forall msg,
          (forall script,
             execute_applescript subprocess_run script = Raise (Exception msg)) ->
          In name tools -> required name (bundle arguments) = true ->
          t = "Error executing " ++ name ++ ": " ++ msg).
Proof.
  unfold handle_call_tool. fold (bundle arguments).
  destruct (call_tool subprocess_run name (bundle arguments)) as [l|e] eqn:E.
  - destruct (call_tool_replies _ _ _ _ E) as [t ->].
    exists t. split; [reflexivity|]. split; [discriminate|]. split; [|split].
    + intros H. rewrite (call_tool_unknown _ _ _ H) in E. discriminate E.
    + intros Hin Hreq.
      destruct (call_tool_missing subprocess_run _ _ Hin Hreq) as [key [K _]].
      rewrite K in E. discriminate E.
    + intros msg Hrun Hin Hreq.
      rewrite (call_tool_invoker_failure _ _ _ _ Hrun Hin Hreq) in E. discriminate E.
  - eexists. split; [reflexivity|]. split; [now intros e' [= <-]|]. split; [|split].
    + intros H. rewrite (call_tool_unknown _ _ _ H) in E. now injection E as <-.
    + intros Hin Hreq.
      destruct (call_tool_missing subprocess_run _ _ Hin Hreq) as [key [K Hk]].
      rewrite K in E. injection E as <-. exists key. now split.
    + intros msg Hrun Hin Hreq.
      rewrite (call_tool_invoker_failure _ _ _ _ Hrun Hin Hreq) in E.
      now injection E as <-.
Qed.

(* ================================================================= *)
(** ** The limits in the scripts *)

Section Limits.

Variable subprocess_run : list string -> result CompletedProcess.

Lemma list_tasks_script_stop (list_name : string) (limit : number) :
  list_tasks_script list_name limit
  = (join nl
       [ EmptyString;
         "        tell application " ++ dq ++ "Things3" ++ dq;
         "            set taskList to {}";
         "            set todoList to to dos of " ++ things_list list_name ]
     ++ nl)
    ++ list_tasks_stop limit
    ++ join nl
         [ "                set taskInfo to (name of thisToDo) & " ++ sep3
           ++ " & (id of thisToDo) & " ++ sep3 ++ " & " ++ continuation_mark;
           "                    (notes of thisToDo) & " ++ sep3
           ++ " & (due date of thisToDo) & " ++ sep3 ++ " & " ++ continuation_mark;
           "                    (creation date of thisToDo) & " ++ sep3
           ++ " & (status of thisToDo)";
           "                set end of taskList to taskInfo";
           "            end repeat";
           "            return taskList as string";
           "        end tell";
           "        " ].
Proof.
  unfold list_tasks_script, block, list_tasks_stop.
  rewrite ?join_cons, ?join_one, ?append_assoc, ?append_empty_l. reflexivity.
Qed.

Lemma search_tasks_script_stop (query : string) (limit : number) :
  search_tasks_script query limit
  = (join nl
       [ EmptyString;
         "        tell application " ++ dq ++ "Things3" ++ dq;
         "            set searchResults to {}";
         "            set allToDos to to dos";
         "            repeat with thisToDo in allToDos";
         "                if (name of thisToDo) contains " ++ dq ++ query ++ dq
         ++ " or (notes of thisToDo) contains " ++ dq ++ query ++ dq ++ " then";
         "                    set taskInfo to (name of thisToDo) & " ++ sep3
         ++ " & (id of thisToDo) & " ++ sep3 ++ " & (status of thisToDo)" ]
     ++ nl)
    ++ search_tasks_stop limit
    ++ join nl
         [ "            end repeat";
           "            return searchResults as string";
           "        end tell";
           "        " ].
Proof.
  unfold search_tasks_script, block, search_tasks_stop.
  rewrite ?join_cons, ?join_one, ?append_assoc, ?append_empty_l. reflexivity.
Qed.

Lemma list_tasks_returns_all (list_name : string) (limit : number) (out : string) :
  execute_applescript subprocess_run (list_tasks_script list_name limit) = Ok out ->
  list_tasks subprocess_run list_name limit
  = Ok (map task_of_parts (filter (has_fields 6) (records out))).
Proof.
  intros H. unfold list_tasks. rewrite H. cbn [bind]. apply parse_list_tasks_spec.
Qed.

Lemma search_tasks_returns_all (query : string) (limit : number) (out : string) :
  execute_applescript subprocess_run (search_tasks_script query limit) = Ok out ->
  search_tasks subprocess_run query limit
  = Ok (map item_of_parts (filter (has_fields 3) (records out))).
Proof.
  intros H. unfold search_tasks. rewrite H. cbn [bind]. apply parse_items_spec.
Qed.

End Limits.

(** C8, as amended.  The limit of a request is written into the script
    and is used nowhere else.  In the script of [list_tasks] it stands in
    one statement, the exit test of the loop, which is the first statement
    of the loop body, before the statement that reads the item; the rest
    of the script is the same for every limit.  In the script of
    [search_tasks] it stands in one statement, the exit test that follows
    the statement appending a match, inside the test for a match.  The
    Python side applies no bound of its own: whatever the limit, every
    record of the response that has enough fields is returned. *)
Theorem limits_in_the_scripts :
  (forall list_name, exists before after, forall limit,
     list_tasks_script list_name limit = before ++ list_tasks_stop limit ++ after)
  /\ (forall query, exists before after, forall limit,
        search_tasks_script query limit = before ++ search_tasks_stop limit ++ after)
  /\ (forall subprocess_run list_name limit out,
        execute_applescript subprocess_run (list_tasks_script list_name limit) = Ok out ->
        list_tasks subprocess_run list_name limit
        = Ok (map task_of_parts (filter (has_fields 6) (records out))))
  /\ (forall subprocess_run query limit out,
        execute_applescript subprocess_run (search_tasks_script query limit) = Ok out ->
        search_tasks subprocess_run query limit
        = Ok (map item_of_parts (filter (has_fields 3) (records out))))
  /\ (forall out list_name query limit other,
        list_tasks (answers out) list_name limit = list_tasks (answers out) list_name other
        /\ search_tasks (answers out) query limit = search_tasks (answers out) query other).
Proof.
  split; [|split; [|split; [|split]]].
  - intros list_name. do 2 eexists. intros limit. apply list_tasks_script_stop.
  - intros query. do 2 eexists. intros limit. apply search_tasks_script_stop.
  - intros run list_name limit out. apply list_tasks_returns_all.
  - intros run query limit out. apply search_tasks_returns_all.
  - intros out list_name query limit other. split.
    + rewrite (list_tasks_returns_all (answers out) list_name limit (strip out)),
        (list_tasks_returns_all (answers out) list_name other (strip out));
        reflexivity.
    + rewrite (search_tasks_returns_all (answers out) query limit (strip out)),
        (search_tasks_returns_all (answers out) query other (strip out));
        reflexivity.
Qed.

(** C8, as stated, fails: on a response of three well-formed records
    [list_tasks] with limit 2 returns three structured records, not two. *)
Lemma three_records_for_limit_two :
  list_tasks (answers three_records) "today" (Int 2)
  = Ok [ sample_record "Buy milk" "A1"; sample_record "Call Bob" "B2";
         sample_record "Pay rent" "C3" ]
  /\ (forall recs, list_tasks (answers three_records) "today" (Int 2) = Ok recs ->
        List.length recs <> 2%nat).
Proof.
  assert (E : list_tasks (answers three_records) "today" (Int 2)
              = Ok [ sample_record "Buy milk" "A1"; sample_record "Call Bob" "B2";
                     sample_record "Pay rent" "C3" ]).
  { vm_compute. reflexivity. }
  split; [exact E|].
  intros recs H. rewrite E in H. injection H as <-. discriminate.
Qed.

(* ================================================================= *)
(** ** More on the parsers *)

Section Trimming.

Lemma after_length (w s rest : string) :
  after w s = Some rest -> String.length s = (String.length w + String.length rest)%nat.
Proof.
  revert s. induction w as [|a w IH]; intros [|b s]; cbn [after]; try discriminate.
  - now intros [= <-].
  - now intros [= <-].
  - destruct (Ascii.eqb a b); [|discriminate].
    intros H. apply IH in H. cbn [String.length]. lia.
Qed.

Lemma after_space_found (spaces : list string) (s rest : string) :
  after_space spaces s = Some rest -> exists w, In w spaces /\ after w s = Some rest.
Proof.
  induction spaces as [|w spaces IH]; cbn [after_space]; [discriminate|].
  destruct (after w s) as [r|] eqn:E.
  - intros [= <-]. exists w. split; [now left | exact E].
  - intros H. destruct (IH H) as [w' [Hin Hw']]. exists w'. split; [now right | exact Hw'].
Qed.

Lemma after_space_shorter (s rest : string) :
  after_space whitespace s = Some rest -> (String.length rest < String.length s)%nat.
Proof.
  intros H. apply after_space_found in H as [w [Hin H]].
  apply after_length in H.
  assert (N : forallb (fun w => Nat.leb 1 (String.length w)) whitespace = true)
    by reflexivity.
  rewrite forallb_forall in N. specialize (N w Hin). apply Nat.leb_le in N. lia.
Qed.

Lemma lstrip_from_clean (n : nat) (s : string) :
  (String.length s <= n)%nat -> starts_clean (lstrip_from n s).
Proof.
  revert s. induction n as [|n IH]; intros s H.
  - destruct s; [reflexivity | cbn [String.length] in H; lia].
  - cbn [lstrip_from]. destruct (after_space whitespace s) as [rest|] eqn:E.
    + apply IH. apply after_space_shorter in E. lia.
    + exact E.
Qed.

Lemma lstrip_starts_clean (s : string) : starts_clean (lstrip s).
Proof. apply lstrip_from_clean. reflexivity. Qed.

Lemma lstrip_of_clean (s : string) : starts_clean s -> lstrip s = s.
Proof.
  unfold starts_clean, lstrip. intros H.
  destruct (String.length s); cbn [lstrip_from]; [reflexivity | now rewrite H].
Qed.

Lemma after_of_prefix (w u t rest : string) :
  after w u = Some rest -> prefix u t = true -> exists rest', after w t = Some rest'.
Proof.
  revert u t. induction w as [|a w IH]; intros u t.
  - intros _ _. now exists t.
  - destruct u as [|b u]; cbn [after]; [discriminate|].
    destruct (Ascii.eqb_spec a b) as [->|_]; [|discriminate].
    intros H P. destruct t as [|c t]; [discriminate P|].
    cbn [prefix] in P. destruct (ascii_dec b c) as [->|_]; [|discriminate P].
    cbn [after]. rewrite Ascii.eqb_refl. now apply (IH u t).
Qed.

Lemma after_space_of_prefix (spaces : list string) (u t : string) :
  after_space spaces t = None -> prefix u t = true -> after_space spaces u = None.
Proof.
  intros H P. induction spaces as [|w spaces IH]; [reflexivity|].
  cbn [after_space] in *. destruct (after w t) as [r|] eqn:E; [discriminate H|].
  destruct (after w u) as [r|] eqn:Eu.
  - destruct (after_of_prefix w u t r Eu P) as [r' E']. congruence.
  - now apply IH.
Qed.

Lemma rstrip_is_prefix (s : string) : prefix (rstrip s) s = true.
Proof.
  induction s as [|c s IH]; [reflexivity|].
  cbn [rstrip]. cbv zeta. destruct (is_space (String c (rstrip s))); [reflexivity|].
  cbn [prefix]. destruct (ascii_dec c c) as [_|N]; [exact IH | now elim N].
Qed.

Lemma rstrip_starts_clean (s : string) : starts_clean s -> starts_clean (rstrip s).
Proof.
  unfold starts_clean. intros H.
  exact (after_space_of_prefix whitespace (rstrip s) s H (rstrip_is_prefix s)).
Qed.

Lemma rstrip_idempotent (s : string) : rstrip (rstrip s) = rstrip s.
Proof.
  induction s as [|c s IH]; [reflexivity|].
  cbn [rstrip]. cbv zeta. destruct (is_space (String c (rstrip s))) eqn:E; [reflexivity|].
  cbn [rstrip]. cbv zeta. now rewrite IH, E.
Qed.

Lemma strip_idempotent (s : string) : strip (strip s) = strip s.
Proof.
  unfold strip.
  rewrite (lstrip_of_clean (rstrip (lstrip s)))
    by apply rstrip_starts_clean, lstrip_starts_clean.
  apply rstrip_idempotent.
Qed.

Lemma or_empty_trimmed (x : string) : trimmed (or_empty x).
Proof.
  unfold trimmed, or_empty. destruct (negb _); [apply strip_idempotent | reflexivity].
Qed.

Lemma or_none_trimmed (x d : string) : or_none x = Some d -> trimmed d.
Proof.
  unfold trimmed, or_none. destruct (negb _); intros [= <-]. apply strip_idempotent.
Qed.

End Trimming.

(** X1.  Every field of every record that a parser returns is trimmed:
    [strip] would leave it as it is. *)
Theorem parsed_fields_are_trimmed (raw : string) :
  (forall recs, parse_list_tasks raw = Ok recs -> Forall trimmed_task recs)
  /\ (forall recs, parse_search_tasks raw = Ok recs -> Forall trimmed_item recs)
  /\ (forall recs, parse_list_projects raw = Ok recs -> Forall trimmed_item recs).
Proof.
  split; [|split].
  - intros recs. rewrite parse_list_tasks_spec. intros [= <-].
    apply Forall_forall. intros r Hr. apply in_map_iff in Hr as [parts [<- _]].
    unfold trimmed_task, task_of_parts; cbn.
    repeat split; try apply strip_idempotent; try apply or_empty_trimmed;
      intros d; apply or_none_trimmed.
  - intros recs. unfold parse_search_tasks. rewrite parse_items_spec. intros [= <-].
    apply Forall_forall. intros r Hr. apply in_map_iff in Hr as [parts [<- _]].
    repeat split; apply strip_idempotent.
  - intros recs. unfold parse_list_projects. rewrite parse_items_spec. intros [= <-].
    apply Forall_forall. intros r Hr. apply in_map_iff in Hr as [parts [<- _]].
    repeat split; apply strip_idempotent.
Qed.

Section RoundTrip.

Lemma prefix_empty (s : string) : prefix EmptyString s = true.
Proof. now destruct s. Qed.

Lemma split_pipes_field (field rest : string) :
  has_char "|" field = false ->
  split "|||" (field ++ "|||" ++ rest) = field :: split "|||" rest.
Proof.
  unfold split. induction field as [|c field IH]; intros H.
  - change (EmptyString ++ "|||" ++ rest) with (String "|" (String "|" (String "|" rest))).
    cbn [split_from prefix String.length Nat.sub].
    destruct (ascii_dec "|" "|") as [_|N]; [|now elim N].
    now rewrite prefix_empty.
  - simpl in H. apply orb_false_iff in H as [Hc Hf]. apply Ascii.eqb_neq in Hc.
    change (String c field ++ "|||" ++ rest) with (String c (field ++ "|||" ++ rest)).
    cbn [split_from prefix].
    destruct (ascii_dec "|" c) as [E|_]; [now elim Hc|].
    now rewrite (IH Hf).
Qed.

Lemma contains_pipes (field : string) :
  has_char "|" field = false -> contains "|||" field = false.
Proof.
  induction field as [|c field IH]; intros H; [reflexivity|].
  simpl in H. apply orb_false_iff in H as [Hc Hf]. apply Ascii.eqb_neq in Hc.
  change (contains "|||" (String c field))
    with (prefix "|||" (String c field) || contains "|||" field).
  rewrite (IH Hf), orb_false_r. cbn [prefix].
  destruct (ascii_dec "|" c) as [E|_]; [now elim Hc | reflexivity].
Qed.

Lemma split_pipes_last (field : string) :
  has_char "|" field = false -> split "|||" field = [field].
Proof. intros H. apply split_without_separator. now apply contains_pipes. Qed.

Lemma clean_parts (s : string) :
  clean s = true -> has_char "," s = false /\ has_char "|" s = false /\ strip s = s.
Proof.
  unfold clean. intros H.
  apply andb_true_iff in H as [H Hs]. apply andb_true_iff in H as [Hc Hp].
  apply negb_true_iff in Hc, Hp. apply String.eqb_eq in Hs. now repeat split.
Qed.

Lemma clean_value_parts (s : string) :
  clean_value s = true -> clean s = true /\ or_empty s = s /\ or_none s = Some s.
Proof.
  unfold clean_value. intros H. apply andb_true_iff in H as [Hc Hm].
  split; [assumption|]. destruct (clean_parts _ Hc) as [_ [_ Hs]].
  unfold or_empty, or_none. rewrite Hs, Hm. now split.
Qed.

Lemma clean_date_parts (o : option string) :
  clean_date o = true -> clean (as_text o) = true /\ or_none (as_text o) = o.
Proof.
  destruct o as [d|]; simpl.
  - intros H. destruct (clean_value_parts _ H) as [Hc [_ Hn]]. now split.
  - intros _. now split.
Qed.

Ltac clean_facts H :=
  repeat match type of H with
         | (_ && _)%bool = true =>
             let H1 := fresh "Hc" in apply andb_true_iff in H as [H H1]
         end.

Lemma fields_of_task_info (t : to_do) :
  clean_to_do t = true ->
  split "|||" (task_info t)
  = [ td_name t; td_id t; td_notes t; as_text (td_due_date t);
      as_text (td_creation_date t); td_status t ]
  /\ has_char "," (task_info t) = false
  /\ task_of_parts
       [ td_name t; td_id t; td_notes t; as_text (td_due_date t);
         as_text (td_creation_date t); td_status t ] = record_of_to_do t.
Proof.
  unfold clean_to_do. intros H. clean_facts H.
  destruct (clean_parts _ H) as [N1 [N2 N3]].
  destruct (clean_parts _ Hc3) as [I1 [I2 I3]].
  destruct (clean_value_parts _ Hc2) as [Hn [On _]].
  destruct (clean_parts _ Hn) as [O1 [O2 O3]].
  destruct (clean_date_parts _ Hc1) as [Hd Dn].
  destruct (clean_parts _ Hd) as [D1 [D2 D3]].
  destruct (clean_date_parts _ Hc0) as [Hr Rn].
  destruct (clean_parts _ Hr) as [R1 [R2 R3]].
  destruct (clean_parts _ Hc) as [S1 [S2 S3]].
  split; [|split].
  - unfold task_info.
    rewrite !split_pipes_field by assumption. now rewrite split_pipes_last.
  - unfold task_info. rewrite !has_char_app, N1, I1, O1, D1, R1, S1. reflexivity.
  - unfold task_of_parts, record_of_to_do. cbn [nth].
    now rewrite N3, I3, On, Dn, Rn, S3.
Qed.

Lemma fields_of_search_info (t : to_do) :
  clean_item t = true ->
  split "|||" (search_info t) = [ td_name t; td_id t; td_status t ]
  /\ has_char "," (search_info t) = false
  /\ item_of_parts [ td_name t; td_id t; td_status t ] = item_of_to_do t.
Proof.
  unfold clean_item. intros H. clean_facts H.
  destruct (clean_parts _ H) as [N1 [N2 N3]].
  destruct (clean_parts _ Hc0) as [I1 [I2 I3]].
  destruct (clean_parts _ Hc) as [S1 [S2 S3]].
  split; [|split].
  - unfold search_info.
    rewrite !split_pipes_field by assumption. now rewrite split_pipes_last.
  - unfold search_info. rewrite !has_char_app, N1, I1, S1. reflexivity.
  - unfold item_of_parts, item_of_to_do. cbn [nth]. now rewrite N3, I3, S3.
Qed.

Lemma records_of_lines (line : string) (lines : list string) :
  forallb (fun l => negb (has_char "," l)) (line :: lines) = true ->
  records (join "," (line :: lines)) = map (split "|||") (line :: lines).
Proof. intros H. unfold records. now rewrite split_comma_join. Qed.

End RoundTrip.

(** X2.  A response in the format that the script of [list_tasks] asks
    for is read back by the parser: for to-dos whose fields hold no comma
    and no vertical bar, have no white space (of any kind that [strip]
    removes) at their ends, and whose notes and dates are not the sentinel
    text, the records of the to-dos joined by commas parse to exactly the
    data of the to-dos, in order (an absent date is written as the
    sentinel and read back as absent). *)
Theorem list_tasks_reads_back (todos : list to_do) :
  forallb clean_to_do todos = true ->
  parse_list_tasks (join "," (map task_info todos)) = Ok (map record_of_to_do todos).
Proof.
  intros H. rewrite parse_list_tasks_spec.
  destruct todos as [|t ts]; [reflexivity|].
  change (map task_info (t :: ts)) with (task_info t :: map task_info ts).
  rewrite records_of_lines.
  - change (task_info t :: map task_info ts) with (map task_info (t :: ts)).
    f_equal. induction (t :: ts) as [|u us IH]; [reflexivity|].
    simpl in H. apply andb_true_iff in H as [Hu Hus].
    destruct (fields_of_task_info u Hu) as [F [_ R]].
    cbn [map]. rewrite F. cbn [filter has_fields List.length Nat.leb map].
    now rewrite R, (IH Hus).
  - change (task_info t :: map task_info ts) with (map task_info (t :: ts)).
    induction (t :: ts) as [|u us IH]; [reflexivity|].
    simpl in H. apply andb_true_iff in H as [Hu Hus].
    destruct (fields_of_task_info u Hu) as [_ [C _]].
    cbn [map forallb]. now rewrite C, (IH Hus).
Qed.

Lemma list_tasks_reads_back_witness :
  parse_list_tasks
    (join ","
       (map task_info [ sample_to_do "Buy milk" "A1"; sample_to_do "Call Bob" "B2" ]))
  = Ok [ sample_record "Buy milk" "A1"; sample_record "Call Bob" "B2" ].
Proof.
  apply (list_tasks_reads_back [ sample_to_do "Buy milk" "A1"; sample_to_do "Call Bob" "B2" ]).
  reflexivity.
Defined.

(** X3.  A response in the format that the scripts of [search_tasks] and
    [list_projects] ask for is read back by their parsers: for items whose
    name, id and status hold no comma and no vertical bar and have no
    white space at their ends, the records joined by commas parse to
    exactly the name, id and status of the items, in order. *)
Theorem search_tasks_reads_back (todos : list to_do) :
  forallb clean_item todos = true ->
  parse_search_tasks (join "," (map search_info todos)) = Ok (map item_of_to_do todos)
  /\ parse_list_projects (join "," (map search_info todos)) = Ok (map item_of_to_do todos).
Proof.
  intros H.
  assert (P : parse_search_tasks (join "," (map search_info todos))
              = Ok (map item_of_to_do todos)).
  { unfold parse_search_tasks. rewrite parse_items_spec.
    destruct todos as [|t ts]; [reflexivity|].
    change (map search_info (t :: ts)) with (search_info t :: map search_info ts).
    rewrite records_of_lines.
    - change (search_info t :: map search_info ts) with (map search_info (t :: ts)).
      f_equal. induction (t :: ts) as [|u us IH]; [reflexivity|].
      simpl in H. apply andb_true_iff in H as [Hu Hus].
      destruct (fields_of_search_info u Hu) as [F [_ R]].
      cbn [map]. rewrite F. cbn [filter has_fields List.length Nat.leb map].
      now rewrite R, (IH Hus).
    - change (search_info t :: map search_info ts) with (map search_info (t :: ts)).
      induction (t :: ts) as [|u us IH]; [reflexivity|].
      simpl in H. apply andb_true_iff in H as [Hu Hus].
      destruct (fields_of_search_info u Hu) as [_ [C _]].
      cbn [map forallb]. now rewrite C, (IH Hus). }
  split; [exact P | exact P].
Qed.

Lemma search_tasks_reads_back_witness :
  parse_search_tasks
    (join "," (map search_info [ sample_to_do "Buy milk" "A1"; sample_to_do "Call Bob" "B2" ]))
  = Ok [ {| item_title := "Buy milk"; item_id := "A1"; item_status := "open" |};
         {| item_title := "Call Bob"; item_id := "B2"; item_status := "open" |} ].
Proof.
  apply (search_tasks_reads_back
           [ sample_to_do "Buy milk" "A1"; sample_to_do "Call Bob" "B2" ]).
  reflexivity.
Defined.

(* ================================================================= *)
(** ** More on the invoker and the builders *)

(** X4.  Whatever the process does, the invoker either returns a text that
    is trimmed, or raises the generic exception with one of two kinds of
    message: the timeout message, or a message that begins
    "Failed to execute AppleScript: ".  No other exception leaves it. *)
Theorem invoker_results (subprocess_run : list string -> result CompletedProcess)
    (script : string) :
  (forall out, execute_applescript subprocess_run script = Ok out -> trimmed out)
  /\ (forall e,
        execute_applescript subprocess_run script = Raise e ->
        e = Exception "AppleScript execution timed out"
        \/ exists cause, e = Exception ("Failed to execute AppleScript: " ++ cause)).
Proof.
  rewrite execute_applescript_eq.
  destruct (subprocess_run _) as [p|e0].
  - destruct (returncode p =? 0)%Z; split; try discriminate.
    + intros out [= <-]. apply strip_idempotent.
    + intros e [= <-]. right. now exists ("AppleScript error: " ++ stderr p).
  - split; [destruct e0; discriminate|].
    intros e H. destruct e0; injection H as <-;
      first [ now left | right; eexists; reflexivity ].
Qed.

Section MoreBuilders.

Lemma string_of_uint_quote_free (d : Decimal.uint) :
  has_char quote_char (NilEmpty.string_of_uint d) = false.
Proof. induction d; simpl; assumption || reflexivity. Qed.

Lemma str_int_quote_free (z : Z) : quote_free (str_int z) = true.
Proof.
  unfold quote_free, str_int. destruct (Z.to_int z); simpl;
    now rewrite string_of_uint_quote_free.
Qed.

Lemma string_of_int_quote_free (i : Decimal.int) :
  has_char quote_char (NilEmpty.string_of_int i) = false.
Proof. destruct i; simpl; now rewrite string_of_uint_quote_free. Qed.

Lemma str_exponent_quote_free (e : Decimal.int) :
  has_char quote_char (str_exponent e) = false.
Proof. destruct e; simpl; now rewrite string_of_uint_quote_free. Qed.

Lemma str_number_quote_free (n : number) : quote_free (str_number n) = true.
Proof.
  destruct n as [z | [i f | i f e] | [|] | ]; try reflexivity.
  - apply str_int_quote_free.
  - unfold quote_free. cbn [str_number str_float].
    now rewrite !has_char_app, string_of_int_quote_free, string_of_uint_quote_free.
  - unfold quote_free. cbn [str_number].
    destruct f; cbn [str_float];
      now rewrite !has_char_app, ?string_of_int_quote_free, ?str_exponent_quote_free,
        ?string_of_uint_quote_free.
Qed.

Lemma list_title_cases (list_name : string) :
  In (list_title list_name) [ "Today"; "Upcoming"; "Anytime"; "Someday"; "Inbox"; "Logbook" ]
  /\ things_list list_name = "list " ++ dq ++ list_title list_name ++ dq.
Proof.
  unfold list_title, things_list, list_titles, list_mapping. cbn [dict_get].
  repeat match goal with
         | |- context [String.eqb ?k (lower list_name)] =>
             destruct (String.eqb k (lower list_name));
             [ split; [simpl; tauto | reflexivity] | ]
         end.
  split; [simpl; tauto | reflexivity].
Qed.

Lemma list_tasks_is_pieces (list_name : string) (limit : number) :
  list_tasks_script list_name limit = render_pieces (list_tasks_pieces list_name limit).
Proof.
  unfold list_tasks_script, list_tasks_pieces, block, sep3.
  rewrite (proj2 (list_title_cases list_name)).
  cbn [render_pieces render_piece].
  rewrite ?join_cons, ?join_one, ?append_assoc, ?append_empty_r, ?append_empty_l.
  reflexivity.
Qed.

Lemma search_tasks_is_pieces (query : string) (limit : number) :
  search_tasks_script query limit = render_pieces (search_tasks_pieces query limit).
Proof.
  unfold search_tasks_script, search_tasks_pieces, block, sep3.
  cbn [render_pieces render_piece].
  rewrite ?join_cons, ?join_one, ?append_assoc, ?append_empty_r, ?append_empty_l.
  reflexivity.
Qed.

Lemma string_literals_pieces (ps : list piece) :
  forallb quote_free (chunks ps) = true ->
  forallb plain (values ps) = true ->
  string_literals (render_pieces ps) = Some (values ps).
Proof.
  intros Hc Hv. unfold string_literals, tokenize.
  rewrite tokenize_pieces by assumption. simpl. now rewrite literals_tokens_from.
Qed.

Lemma truthy_idempotent (o : option string) : truthy (truthy o) = truthy o.
Proof. now destruct o as [[|c s]|]. Qed.

Lemma truthy_list_idempotent {A} (o : option (list A)) :
  truthy_list (truthy_list o) = truthy_list o.
Proof. now destruct o as [[|x l]|]. Qed.

End MoreBuilders.

(** X5.  No text of the request reaches a string literal of the scripts
    of [list_tasks] and of [list_projects].  For every list name and every
    limit, read by the string-literal rule (the text between one double
    quote and the next) the script of [list_tasks] holds the same seven
    strings: the application name, one of the six list titles, and the
    field separator five times.  For every status text the script of
    [list_projects] holds the application name and the field separator
    twice. *)
Theorem listing_scripts_are_closed (list_name status : string) (limit : number) :
  string_literals (list_tasks_script list_name limit)
  = Some [ "Things3"; list_title list_name; "|||"; "|||"; "|||"; "|||"; "|||" ]
  /\ In (list_title list_name)
       [ "Today"; "Upcoming"; "Anytime"; "Someday"; "Inbox"; "Logbook" ]
  /\ string_literals (list_projects_script status) = Some [ "Things3"; "|||"; "|||" ].
Proof.
  split; [|split; [apply list_title_cases|]].
  - rewrite list_tasks_is_pieces, string_literals_pieces.
    + reflexivity.
    + cbn [list_tasks_pieces chunks forallb]. rewrite str_number_quote_free. reflexivity.
    + cbn [list_tasks_pieces values forallb].
      destruct (list_title_cases list_name) as [H _]. simpl in H.
      destruct H as [<-|[<-|[<-|[<-|[<-|[<-|[]]]]]]]; reflexivity.
  - unfold list_projects_script, status_filter.
    destruct (String.eqb status "open"); [reflexivity|].
    destruct (String.eqb status "completed"); reflexivity.
Qed.

(** X6.  What the builders do not look at.  The scripts of [add_task],
    [add_project] and [update_task] depend on their optional arguments
    only through their truth value, so that an argument given but empty is
    treated as one not given, and [update_task] cannot set a title or
    notes to the empty text.  The script of [update_task] does not depend
    on the tags at all.  [add_project] acts on [when] only when it is
    exactly the text today, and [list_projects] filters only for the
    status texts open and completed: every other text (another case, a
    misspelling) gives the script without filter, with no error. *)
Theorem ignored_arguments :
  (forall title notes due_date area project tags,
     add_task_script title notes due_date area project tags
     = add_task_script title (truthy notes) (truthy due_date) (truthy area)
         (truthy project) (truthy_list tags))
  /\ (forall title notes area when,
        add_project_script title notes area when
        = add_project_script title (truthy notes) (truthy area) when)
  /\ (forall task_identifier title notes due_date tags,
        update_task_script task_identifier title notes due_date tags
        = update_task_script task_identifier (truthy title) (truthy notes)
            (truthy due_date) None)
  /\ (forall task_identifier due_date tags,
        update_task_script task_identifier (Some EmptyString) (Some EmptyString) due_date tags
        = update_task_script task_identifier None None due_date None)
  /\ (forall title notes area when,
        when <> "today" ->
        add_project_script title notes area when
        = add_project_script title notes area "someday")
  /\ (forall status,
        status <> "open" -> status <> "completed" ->
        list_projects_script status = list_projects_script "all").
Proof.
  repeat split; intros.
  - unfold add_task_script. now rewrite !truthy_idempotent, truthy_list_idempotent.
  - unfold add_project_script. now rewrite !truthy_idempotent.
  - unfold update_task_script. now rewrite !truthy_idempotent.
  - match goal with H : _ <> _ |- _ => apply String.eqb_neq in H; rename H into Hw end.
    unfold add_project_script. now rewrite Hw.
  - match goal with
    | H1 : _ <> "open", H2 : _ <> "completed" |- _ =>
        apply String.eqb_neq in H1, H2; unfold list_projects_script, status_filter;
        now rewrite H1, H2
    end.
Qed.

(** X7.  For the other builders that splice user text, [add_project],
    [complete_task] and [search_tasks]: when the spliced values contain
    neither a double quote nor a backslash, reading the script back by the
    string-literal rule yields exactly the application name, the values
    and the fixed messages, in order. *)
Theorem round_trip_of_other_builders (w : also_written) :
  all_plain (values_written w) = true ->
  string_literals (script_written w) = Some (values_written w).
Proof.
  unfold all_plain. intros H.
  destruct w as [title notes area when | x | query limit];
    cbn [script_written values_written] in *.
  - rewrite add_project_is_pieces.
    rewrite <- values_add_project with (when := when) in *.
    apply string_literals_pieces; [|assumption].
    unfold add_project_pieces.
    rewrite !chunks_app, !forallb_app, !chunks_clause by reflexivity.
    now destruct (String.eqb when "today").
  - rewrite complete_task_is_pieces. now apply string_literals_pieces.
  - rewrite search_tasks_is_pieces. apply string_literals_pieces; [|assumption].
    cbn [search_tasks_pieces chunks forallb]. rewrite str_number_quote_free. reflexivity.
Qed.

Lemma round_trip_of_other_builders_witness :
  string_literals (script_written (TasksSearched "milk" (Int 10)))
  = Some [ "Things3"; "milk"; "milk"; "|||"; "|||" ].
Proof.
  apply (round_trip_of_other_builders (TasksSearched "milk" (Int 10))). reflexivity.
Defined.

(* ================================================================= *)
(** ** What the scripts do to a to-do they find *)

Section Located.

Lemma find_index_lt (p : to_do -> bool) (l : list to_do) (i : nat) :
  find_index p l = Some i -> (i < List.length l)%nat.
Proof.
  revert i. induction l as [|t l IH]; intros i; simpl; [discriminate|].
  destruct (p t).
  - intros [= <-]. lia.
  - destruct (find_index p l) as [j|]; [|discriminate].
    intros [= <-]. specialize (IH j eq_refl). lia.
Qed.

Lemma update_at_map_at (i : nat) (f : to_do -> to_do) (l : list to_do) :
  (i < List.length l)%nat -> update_at i f l = Some (map_at i f l).
Proof.
  revert i. induction l as [|t l IH]; intros i H; simpl in *; [lia|].
  destruct i as [|j]; [reflexivity|]. cbn [update_at map_at].
  rewrite IH by lia. reflexivity.
Qed.

Lemma length_map_at (i : nat) (f : to_do -> to_do) (l : list to_do) :
  List.length (map_at i f l) = List.length l.
Proof.
  revert i. induction l as [|t l IH]; intros [|j]; simpl; try reflexivity.
  now rewrite IH.
Qed.

Lemma map_at_map_at (i : nat) (f g : to_do -> to_do) (l : list to_do) :
  map_at i g (map_at i f l) = map_at i (fun t => g (f t)) l.
Proof.
  revert i. induction l as [|t l IH]; intros [|j]; simpl; try reflexivity.
  now rewrite IH.
Qed.

Lemma nth_error_map_at (i j : nat) (f : to_do -> to_do) (l : list to_do) :
  nth_error (map_at i f l) j
  = if Nat.eqb j i then option_map f (nth_error l j) else nth_error l j.
Proof.
  revert i j. induction l as [|t l IH]; intros [|i] [|j]; simpl; try reflexivity.
  - now destruct (Nat.eqb j i).
  - apply IH.
Qed.

Lemma locate_lt (x : string) (app : things) (i : nat) (reqs : list request) :
  locate x app = Some (i, reqs) -> (i < List.length (to_dos app))%nat.
Proof.
  unfold locate.
  destruct (find_index (fun t => String.eqb (td_id t) x) (to_dos app)) as [j|] eqn:E1.
  - intros [= <- _]. now apply find_index_lt in E1.
  - destruct (find_index (fun t => String.eqb (td_name t) x) (to_dos app)) as [j|] eqn:E2; [|discriminate].
    intros [= <- _]. now apply find_index_lt in E2.
Qed.

(** The lookup that both scripts begin with. *)
Lemma lookup_located (x not_found : string) (app : things) (i : nat) (reqs : list request) :
  locate x app = Some (i, reqs) ->
  try_ (to_do_id x) (try_ (to_do_named x) (return_ not_found)) app
  = (AppleScript.Value i, changed i (fun t => t) reqs app).
Proof.
  unfold locate, try_, to_do_id, to_do_named, changed.
  assert (M : forall l, map_at i (fun t => t) l = l).
  { intros l. revert i. induction l as [|t l IH]; intros [|j]; simpl; try reflexivity.
    now rewrite IH. }
  destruct (find_index (fun t => String.eqb (td_id t) x) (to_dos app)) as [j|] eqn:E1.
  - intros [= <- <-]. unfold ask. now rewrite M.
  - cbn [to_dos ask].
    destruct (find_index (fun t => String.eqb (td_name t) x) (to_dos app)) as [j|] eqn:E2; [|discriminate].
    intros [= <- <-]. unfold ask. cbn. now rewrite M, <- app_assoc.
Qed.

Lemma set_property_changed (i : nat) (f g : to_do -> to_do) (reqs : list request)
    (app : things) :
  (i < List.length (to_dos app))%nat ->
  set_property i g (changed i f reqs app)
  = (AppleScript.Value tt, changed i (fun t => g (f t)) reqs app).
Proof.
  intros H. unfold set_property, changed. cbn [to_dos to_dos_of_list date requests].
  rewrite update_at_map_at by (now rewrite length_map_at).
  now rewrite map_at_map_at.
Qed.

Lemma complete_task_program_located (x m1 m2 m3 : string) (app : things) (i : nat)
    (reqs : list request) :
  locate x app = Some (i, reqs) ->
  complete_task_program x m1 x m2 m3 app
  = (Returned (match reqs with [ _ ] => m1 | _ => m2 end),
     changed i (with_status "completed") reqs app).
Proof.
  intros H. pose proof (locate_lt _ _ _ _ H) as L.
  unfold locate in H. unfold complete_task_program, try_, seq, to_do_id, to_do_named, return_.
  destruct (find_index (fun t => String.eqb (td_id t) x) (to_dos app)) as [j|] eqn:E1.
  - injection H as <- <-.
    unfold set_property. cbn [to_dos ask].
    rewrite update_at_map_at by assumption. reflexivity.
  - cbn [to_dos ask].
    destruct (find_index (fun t => String.eqb (td_name t) x) (to_dos app)) as [j|] eqn:E2; [|discriminate].
    injection H as <- <-.
    unfold set_property. cbn [to_dos ask].
    rewrite update_at_map_at by assumption.
    unfold changed. cbn. now rewrite <- app_assoc.
Qed.

Lemma run_complete_task_located (x : string) (app : things) (i : nat)
    (reqs : list request) :
  plain x = true ->
  locate x app = Some (i, reqs) ->
  run_complete_task (complete_task_script x) app
  = Ran (Returned (found_message reqs)) (changed i (with_status "completed") reqs app).
Proof.
  intros Hp H. unfold run_complete_task.
  rewrite (complete_task_is_pieces x), run_script_pieces.
  - cbn [complete_task_pieces values complete_task_literals].
    now rewrite (complete_task_program_located _ _ _ _ _ _ _ H).
  - reflexivity.
  - cbn [complete_task_pieces values forallb]. rewrite plain_app, Hp. reflexivity.
  - vm_compute. reflexivity.
Qed.

Lemma nth_error_changed (i j : nat) (f : to_do -> to_do) (reqs : list request)
    (app : things) :
  nth_error (to_dos (changed i f reqs app)) j
  = if Nat.eqb j i then option_map f (nth_error (to_dos app) j) else nth_error (to_dos app) j.
Proof. cbn [to_dos changed]. apply nth_error_map_at. Qed.

End Located.

(** X8.  When a to-do has the identifier as its id, or else one has it
    as its name, the script of [complete_task] (for an identifier without
    double quote and backslash) sets the status of that to-do to completed,
    changes no other to-do, asks by name only if asking by id has failed,
    and returns the message that tells which lookup found it.  A to-do
    with that id is preferred to another with that name. *)
Theorem complete_task_marks_the_located (x : string) (app : things) (i : nat)
    (reqs : list request) :
  plain x = true ->
  locate x app = Some (i, reqs) ->
  run_complete_task (complete_task_script x) app
  = Ran (Returned (found_message reqs)) (changed i (with_status "completed") reqs app)
  /\ (forall j, j <> i ->
        nth_error (to_dos (changed i (with_status "completed") reqs app)) j
        = nth_error (to_dos app) j)
  /\ nth_error (to_dos (changed i (with_status "completed") reqs app)) i
     = option_map (with_status "completed") (nth_error (to_dos app) i).
Proof.
  intros Hp H. split; [|split].
  - now apply run_complete_task_located.
  - intros j Hj. rewrite nth_error_changed.
    apply Nat.eqb_neq in Hj. now rewrite Hj.
  - rewrite nth_error_changed. now rewrite Nat.eqb_refl.
Qed.

Lemma complete_task_marks_the_located_witness :
  run_complete_task (complete_task_script "B2")
    {| to_dos := [ sample_to_do "B2" "A1"; sample_to_do "Call Bob" "B2" ];
       to_dos_of_list := fun _ => []; date := fun _ => None; requests := [] |}
  = Ran (Returned "Task completed successfully (found by ID)")
      {| to_dos := [ sample_to_do "B2" "A1";
                     with_status "completed" (sample_to_do "Call Bob" "B2") ];
         to_dos_of_list := fun _ => []; date := fun _ => None;
         requests := [ ToDoById "B2" ] |}.
Proof.
  apply (complete_task_marks_the_located "B2"
           {| to_dos := [ sample_to_do "B2" "A1"; sample_to_do "Call Bob" "B2" ];
              to_dos_of_list := fun _ => []; date := fun _ => None; requests := [] |}
           1 [ ToDoById "B2" ]); reflexivity.
Defined.

(* ================================================================= *)
(** ** What the script of [update_task] does to the to-do it finds *)

Section UpdateLocated.

Lemma seq_value {A B : Type} (m : script A) (k : A -> script B) (app app' : things) (a : A) :
  m app = (AppleScript.Value a, app') -> seq m k app = k a app'.
Proof. intros H. unfold seq. now rewrite H. Qed.

Lemma seq_seq {A B C : Type} (m : script A) (k1 : A -> script B) (k2 : B -> script C)
    (app : things) :
  seq (seq m k1) k2 app = seq m (fun a => seq (k1 a) k2) app.
Proof. unfold seq. destruct (m app) as [[a| |] app']; reflexivity. Qed.

Lemma seq_pure {A B : Type} (a : A) (k : A -> script B) (app : things) :
  seq (pure a) k app = k a app.
Proof. reflexivity. Qed.

Lemma seq_set_property {B : Type} (i : nat) (f g : to_do -> to_do) (k : unit -> script B)
    (reqs : list request) (app : things) :
  (i < List.length (to_dos app))%nat ->
  seq (set_property i g) k (changed i f reqs app)
  = k tt (changed i (fun t => g (f t)) reqs app).
Proof. intros L. apply seq_value. now apply set_property_changed. Qed.

Lemma seq_to_date {B : Type} (v : string) (k : string -> script B) (i : nat)
    (f : to_do -> to_do) (reqs : list request) (app : things) :
  seq (to_date v) k (changed i f reqs app)
  = match date app v with
    | Some d => k d (changed i f reqs app)
    | None => (Errored, changed i f reqs app)
    end.
Proof.
  unfold seq, to_date. cbn [date changed]. now destruct (date app v).
Qed.

Ltac update_steps L :=
  repeat first
    [ rewrite seq_seq
    | rewrite seq_pure
    | rewrite (seq_set_property _ _ _ _ _ _ L)
    | progress cbv beta ].

Lemma update_task_program_located (x not_found : string) (title notes : option string)
    (app : things) (i : nat) (reqs : list request) :
  locate x app = Some (i, reqs) ->
  forall due : option (string * string),
  update_task_program x x not_found EmptyString
    match truthy title with Some v => Some (v, "Title updated. ") | None => None end
    match truthy notes with Some v => Some (v, "Notes updated. ") | None => None end
    due app
  = match due with
    | None =>
        (Returned (message_if title "Title updated. " ++ message_if notes "Notes updated. "),
         changed i (fun t => update_notes notes (update_name title t)) reqs app)
    | Some (v, msg) =>
        match date app v with
        | Some d =>
            (Returned (message_if title "Title updated. "
                       ++ message_if notes "Notes updated. " ++ msg),
             changed i (fun t => with_due_date d (update_notes notes (update_name title t)))
               reqs app)
        | None =>
            (Errored, changed i (fun t => update_notes notes (update_name title t)) reqs app)
        end
    end.
Proof.
  intros H due. pose proof (locate_lt _ _ _ _ H) as L.
  unfold update_task_program, message_if, update_name, update_notes.
  rewrite (seq_value _ _ _ _ _ (lookup_located x not_found app i reqs H)).
  destruct (truthy title) as [vt|], (truthy notes) as [vn|], due as [[vd msg]|];
    update_steps L;
    try (rewrite seq_to_date; destruct (date app vd) as [d|]; update_steps L);
    reflexivity.
Qed.

Lemma take_pair_with_message (o : option string) (msg : string) (rest : list string) :
  take_pair o (with_message o msg ++ rest)
  = (match truthy o with Some v => Some (v, msg) | None => None end, rest).
Proof.
  unfold take_pair, with_message. destruct (truthy o) as [v|] eqn:E.
  - reflexivity.
  - cbn [List.app]. now destruct rest as [|? [|? ?]].
Qed.

Lemma update_task_values_plain (x : string) (title notes due_date : option string) :
  all_plain (x :: present title ++ present notes ++ present due_date) = true ->
  forallb plain (update_task_values x title notes due_date) = true.
Proof.
  unfold all_plain, update_task_values, with_message, present.
  destruct (truthy title), (truthy notes), (truthy due_date);
    cbn [forallb List.app]; intros Hp;
    repeat match goal with
           | H : (_ && _)%bool = true |- _ => apply andb_true_iff in H as [? H]
           end;
    repeat first [ assumption | reflexivity | apply andb_true_iff; split ].
Qed.

Lemma run_update_task_located (x : string) (title notes due_date : option string)
    (tags : option (list string)) (app : things) (i : nat) (reqs : list request) :
  all_plain (x :: present title ++ present notes ++ present due_date) = true ->
  locate x app = Some (i, reqs) ->
  run_update_task title notes due_date (update_task_script x title notes due_date tags) app
  = match truthy due_date with
    | None =>
        Ran (Returned (message_if title "Title updated. "
                       ++ message_if notes "Notes updated. "))
          (changed i (fun t => update_notes notes (update_name title t)) reqs app)
    | Some v =>
        match date app v with
        | Some d =>
            Ran (Returned (message_if title "Title updated. "
                           ++ message_if notes "Notes updated. " ++ "Due date updated. "))
              (changed i (fun t => with_due_date d (update_notes notes (update_name title t)))
                 reqs app)
        | None =>
            Ran Errored
              (changed i (fun t => update_notes notes (update_name title t)) reqs app)
        end
    end.
Proof.
  intros Hp H. unfold run_update_task.
  rewrite (update_task_is_pieces x title notes due_date tags), run_script_pieces.
  - rewrite values_update_task. unfold update_task_values, update_task_literals.
    cbn [List.app].
    rewrite !take_pair_with_message.
    rewrite <- (app_nil_r (with_message due_date _)), take_pair_with_message.
    rewrite (update_task_program_located x "Task not found" title notes app i reqs H).
    destruct (truthy due_date) as [v|]; [destruct (date app v)|]; reflexivity.
  - apply chunks_update_task.
  - rewrite values_update_task. now apply update_task_values_plain.
  - unfold update_task_pieces, statement, placeholder.
    destruct (truthy title), (truthy notes), (truthy due_date); vm_compute; reflexivity.
Qed.

End UpdateLocated.

(** X9.  When a to-do has the identifier as its id, or else one has it
    as its name, the script of [update_task] (for values without double
    quote and backslash) changes that to-do and no other: it sets the name
    when a title is given, then the notes when notes are given, then the
    due date when one is given, and returns the messages of the changes it
    made, in this order.  The tags play no part.  When the application
    cannot read the due date the script ends in an error, after the name
    and the notes have been set. *)
Theorem update_task_changes_the_located (x : string) (title notes due_date : option string)
    (tags : option (list string)) (app : things) (i : nat) (reqs : list request) :
  all_plain (x :: present title ++ present notes ++ present due_date) = true ->
  locate x app = Some (i, reqs) ->
  run_update_task title notes due_date (update_task_script x title notes due_date tags) app
  = match truthy due_date with
    | None =>
        Ran (Returned (message_if title "Title updated. "
                       ++ message_if notes "Notes updated. "))
          (changed i (fun t => update_notes notes (update_name title t)) reqs app)
    | Some v =>
        match date app v with
        | Some d =>
            Ran (Returned (message_if title "Title updated. "
                           ++ message_if notes "Notes updated. " ++ "Due date updated. "))
              (changed i (fun t => with_due_date d (update_notes notes (update_name title t)))
                 reqs app)
        | None =>
            Ran Errored
              (changed i (fun t => update_notes notes (update_name title t)) reqs app)
        end
    end
  /\ (forall f j, j <> i ->
        nth_error (to_dos (changed i f reqs app)) j = nth_error (to_dos app) j).
Proof.
  intros Hp H. split.
  - now apply run_update_task_located.
  - intros f j Hj. rewrite nth_error_changed.
    apply Nat.eqb_neq in Hj. now rewrite Hj.
Qed.

Lemma update_task_changes_the_located_witness :
  run_update_task (Some "Call Ann") None (Some "tomorrow")
    (update_task_script "B2" (Some "Call Ann") None (Some "tomorrow") (Some [ "phone" ]))
    {| to_dos := [ sample_to_do "B2" "A1"; sample_to_do "Call Bob" "B2" ];
       to_dos_of_list := fun _ => []; date := fun _ => None; requests := [] |}
  = Ran Errored
      {| to_dos := [ sample_to_do "B2" "A1"; with_name "Call Ann" (sample_to_do "Call Bob" "B2") ];
         to_dos_of_list := fun _ => []; date := fun _ => None;
         requests := [ ToDoById "B2" ] |}.
Proof.
  apply (update_task_changes_the_located "B2" (Some "Call Ann") None (Some "tomorrow")
           (Some [ "phone" ])
           {| to_dos := [ sample_to_do "B2" "A1"; sample_to_do "Call Bob" "B2" ];
              to_dos_of_list := fun _ => []; date := fun _ => None; requests := [] |}
           1 [ ToDoById "B2" ]); reflexivity.
Defined.

(* ================================================================= *)
(** ** The declared tools and the dispatcher *)

Section Declared.

Variable subprocess_run : list string -> result CompletedProcess.

Lemma bind_raises {A B : Type} (r : result A) (k : A -> result B) (e : exn) :
  bind r k = Raise e ->
  r = Raise e \/ exists a, r = Ok a /\ k a = Raise e.
Proof.
  destruct r as [a|e0]; cbn [bind]; intros H.
  - right. now exists a.
  - left. now injection H as ->.
Qed.

Lemma list_tasks_raises (list_name : string) (limit : number) (e : exn) :
  list_tasks subprocess_run list_name limit = Raise e ->
  execute_applescript subprocess_run (list_tasks_script list_name limit) = Raise e.
Proof.
  unfold list_tasks. intros H.
  apply bind_raises in H as [H|[out [_ H]]]; [exact H|].
  now rewrite parse_list_tasks_spec in H.
Qed.

Lemma search_tasks_raises (query : string) (limit : number) (e : exn) :
  search_tasks subprocess_run query limit = Raise e ->
  execute_applescript subprocess_run (search_tasks_script query limit) = Raise e.
Proof.
  unfold search_tasks. intros H.
  apply bind_raises in H as [H|[out [_ H]]]; [exact H|].
  unfold parse_search_tasks in H. now rewrite parse_items_spec in H.
Qed.

Lemma list_projects_raises (status : string) (e : exn) :
  list_projects subprocess_run status = Raise e ->
  execute_applescript subprocess_run (list_projects_script status) = Raise e.
Proof.
  unfold list_projects. intros H.
  apply bind_raises in H as [H|[out [_ H]]]; [exact H|].
  unfold parse_list_projects in H. now rewrite parse_items_spec in H.
Qed.

Lemma declared_names : map tool_name handle_list_tools = tools.
Proof. reflexivity. Qed.

Ltac each_tool Hin :=
  cbn [handle_list_tools In] in Hin;
  destruct Hin as [<-|[<-|[<-|[<-|[<-|[<-|[<-|[<-|[]]]]]]]]].

Lemma valid_call_raises (t : Tool) (a : arguments) (e : exn) :
  In t handle_list_tools ->
  forallb (fun key => has_key key a) (tool_required t) = true ->
  call_tool subprocess_run (tool_name t) a = Raise e ->
  exists script, execute_applescript subprocess_run script = Raise e.
Proof.
  intros Hin Hreq. each_tool Hin;
    cbn in Hreq; rewrite ?andb_true_r in Hreq; try apply negb_true_iff in Hreq;
    cbn [tool_name]; unfold call_tool; cbn [String.eqb Ascii.eqb Bool.eqb];
    try match goal with
        | H : is_none ?o = false |- _ => destruct o; [|discriminate H]
        end;
    cbn [subscript bind]; intros H.
  - unfold add_task in H. apply bind_raises in H as [H|[? [_ H]]]; [|discriminate H].
    eexists; exact H.
  - apply bind_raises in H as [H|[tasks [_ H]]].
    + apply list_tasks_raises in H. eexists; exact H.
    + destruct tasks; discriminate H.
  - unfold complete_task in H. apply bind_raises in H as [H|[? [_ H]]]; [|discriminate H].
    eexists; exact H.
  - apply bind_raises in H as [H|[tasks [_ H]]].
    + apply search_tasks_raises in H. eexists; exact H.
    + destruct tasks; discriminate H.
  - apply bind_raises in H as [H|[projects [_ H]]].
    + apply list_projects_raises in H. eexists; exact H.
    + destruct projects; discriminate H.
  - unfold add_project in H. apply bind_raises in H as [H|[? [_ H]]]; [|discriminate H].
    eexists; exact H.
  - unfold get_daily_overview in H. apply bind_raises in H as [H|[? [_ H]]]; [|discriminate H].
    eexists; exact H.
  - unfold update_task in H. apply bind_raises in H as [H|[? [_ H]]]; [|discriminate H].
    eexists; exact H.
Qed.

End Declared.

Lemma invalid_call_raises (t : Tool) (a : arguments) :
  In t handle_list_tools ->
  forallb (fun key => has_key key a) (tool_required t) = false ->
  exists key,
    In key (tool_required t) /\ has_key key a = false /\
    forall subprocess_run, call_tool subprocess_run (tool_name t) a = Raise (KeyError key).
Proof.
  intros Hin Hreq.
  cbn [handle_list_tools In] in Hin;
  destruct Hin as [<-|[<-|[<-|[<-|[<-|[<-|[<-|[<-|[]]]]]]]]];
    cbn [tool_required forallb] in Hreq; try discriminate Hreq;
    rewrite andb_true_r in Hreq;
    (eexists; split; [left; reflexivity|]; split; [exact Hreq|]);
    cbn in Hreq; apply negb_false_iff in Hreq;
    intros run; cbn [tool_name]; unfold call_tool; cbn [String.eqb Ascii.eqb Bool.eqb];
    match goal with
    | H : is_none ?o = true |- _ => destruct o; [discriminate H|]
    end;
    reflexivity.
Qed.

(** X10.  The dispatcher and the declared tools agree.  For a declared
    tool, a bundle that lacks an argument the schema requires makes the
    dispatcher raise the key error of such an argument, whatever the
    process would do, so that nothing is run; a bundle that holds the
    required arguments can fail only with a failure of the invoker.  For a
    name that is not declared the dispatcher raises the unknown-tool
    error. *)
Theorem declared_tools_are_dispatched
    (subprocess_run : list string -> result CompletedProcess) (a : arguments) :
  (forall t, In t handle_list_tools ->
     (forallb (fun key => has_key key a) (tool_required t) = true ->
      forall e, call_tool subprocess_run (tool_name t) a = Raise e ->
        exists script, execute_applescript subprocess_run script = Raise e)
     /\ (forallb (fun key => has_key key a) (tool_required t) = false ->
         exists key,
           In key (tool_required t) /\ has_key key a = false /\
           forall other_run, call_tool other_run (tool_name t) a = Raise (KeyError key)))
  /\ (forall name, ~ In name (map tool_name handle_list_tools) ->
        call_tool subprocess_run name a = Raise (ValueError ("Unknown tool: " ++ name))).
Proof.
  split.
  - intros t Hin. split.
    + intros Hreq e H. now apply (valid_call_raises subprocess_run t a e).
    + now apply invalid_call_raises.
  - intros name H. apply call_tool_unknown. now rewrite <- declared_names.
Qed.

(** X11.  The defaults that the schemas declare are the defaults that the
    dispatcher uses: for a declared tool, a bundle in which the declared
    defaults have been filled in for the keys it does not hold is
    answered exactly as the bundle itself. *)
Theorem declared_defaults_are_used
    (subprocess_run : list string -> result CompletedProcess) (t : Tool) (a : arguments) :
  In t handle_list_tools ->
  call_tool subprocess_run (tool_name t) (with_defaults t a)
  = call_tool subprocess_run (tool_name t) a.
Proof.
  intros Hin. destruct a as [ti no du ar pr ta li lim id qu st wh].
  cbn [handle_list_tools In] in Hin.
  destruct Hin as [<-|[<-|[<-|[<-|[<-|[<-|[<-|[<-|[]]]]]]]]];
    cbv [with_defaults tool_properties fold_right fill_default prop prop_default prop_key
         String.eqb Ascii.eqb Bool.eqb arg_title arg_notes arg_due_date arg_area arg_project
         arg_tags arg_list arg_limit arg_task_id arg_query arg_status arg_when];
    try reflexivity;
    cbn [tool_name]; unfold call_tool; cbn [String.eqb Ascii.eqb Bool.eqb];
    cbn [arg_title arg_notes arg_due_date arg_area arg_project
         arg_tags arg_list arg_limit arg_task_id arg_query arg_status arg_when];
    try destruct li; try destruct lim; try destruct st; reflexivity.
Qed.

Lemma declared_defaults_are_used_witness :
  call_tool (answers "Buy milk|||A1|||open") "search_tasks"
    {| arg_title := None; arg_notes := None; arg_due_date := None; arg_area := None;
       arg_project := None; arg_tags := None; arg_list := None; arg_limit := Some (Int 10);
       arg_task_id := None; arg_query := Some "milk"; arg_status := None;
       arg_when := None |}
  = call_tool (answers "Buy milk|||A1|||open") "search_tasks"
      {| arg_title := None; arg_notes := None; arg_due_date := None; arg_area := None;
         arg_project := None; arg_tags := None; arg_list := None; arg_limit := None;
         arg_task_id := None; arg_query := Some "milk"; arg_status := None;
         arg_when := None |}.
Proof.
  apply (declared_defaults_are_used (answers "Buy milk|||A1|||open")
           (nth 3 handle_list_tools
              {| tool_name := EmptyString; tool_description := EmptyString;
                 tool_properties := []; tool_required := [] |})
           {| arg_title := None; arg_notes := None; arg_due_date := None; arg_area := None;
              arg_project := None; arg_tags := None; arg_list := None; arg_limit := None;
              arg_task_id := None; arg_query := Some "milk"; arg_status := None;
              arg_when := None |}).
  cbn [handle_list_tools nth In]. do 3 right. left. reflexivity.
Defined.

(* ================================================================= *)
(** ** The replies of the listing tools *)

Section Replies.

Lemma concat_cons (x : string) (l : list string) :
  String.concat EmptyString (x :: l) = x ++ String.concat EmptyString l.
Proof.
  destruct l as [|y l]; [now rewrite join_one, append_empty_r|].
  rewrite join_cons. reflexivity.
Qed.

Lemma fold_left_lines {A : Type} (g : string -> A -> string) (f : A -> string)
    (l : list A) (init : string) :
  (forall r x, g r x = r ++ f x) ->
  fold_left g l init = init ++ String.concat EmptyString (map f l).
Proof.
  intros Hg. revert init. induction l as [|x l IH]; intros init.
  - cbn [fold_left map]. now rewrite append_empty_r.
  - cbn [fold_left map]. rewrite IH, Hg, concat_cons. now rewrite append_assoc.
Qed.

Lemma listing_of_records {A : Type} (none : string) (header : nat -> string)
    (f : A -> string) (l : list A) :
  match l with
  | [] => none
  | _ => header (List.length l) ++ String.concat EmptyString (map f l)
  end = listing none header (map f l).
Proof. destruct l; [reflexivity|]. unfold listing. cbn [map List.length]. now rewrite length_map. Qed.

End Replies.

(** X12.  The replies of the three listing tools.  When the invoker
    returns a text for the script, the reply of [list_tasks] is the text
    for an empty list when no record of the text has six fields, and
    otherwise the header with the number of such records and the list name
    as it was asked for, followed by one line per record in order: the
    title, the due date when there is one, and the notes when they are not
    empty.  Likewise for [search_tasks] (three fields; title and status)
    and [list_projects] (three fields; title). *)
Theorem listing_replies (subprocess_run : list string -> result CompletedProcess)
    (a : arguments) (out : string) :
  (execute_applescript subprocess_run
     (list_tasks_script (get (arg_list a) "today") (get (arg_limit a) (Int 20))) = Ok out ->
   handle_call_tool subprocess_run "list_tasks" (Some a)
   = reply (listing ("No tasks found in " ++ get (arg_list a) "today" ++ " list")
              (fun n => "Found " ++ str_nat n ++ " tasks in " ++ get (arg_list a) "today"
                        ++ ":" ++ nl ++ nl)
              (map task_line (map task_of_parts (filter (has_fields 6) (records out))))))
  /\ (forall query,
        arg_query a = Some query ->
        execute_applescript subprocess_run
          (search_tasks_script query (get (arg_limit a) (Int 10))) = Ok out ->
        handle_call_tool subprocess_run "search_tasks" (Some a)
        = reply (listing ("No tasks found matching " ++ apos ++ query ++ apos)
                   (fun n => "Found " ++ str_nat n ++ " tasks matching " ++ apos ++ query
                             ++ apos ++ ":" ++ nl ++ nl)
                   (map search_line
                      (map item_of_parts (filter (has_fields 3) (records out))))))
  /\ (execute_applescript subprocess_run
        (list_projects_script (get (arg_status a) "open")) = Ok out ->
      handle_call_tool subprocess_run "list_projects" (Some a)
      = reply (listing ("No " ++ get (arg_status a) "open" ++ " projects found")
                 (fun n => "Found " ++ str_nat n ++ " " ++ get (arg_status a) "open"
                           ++ " projects:" ++ nl ++ nl)
                 (map project_line
                    (map item_of_parts (filter (has_fields 3) (records out)))))).
Proof.
  split; [|split].
  - intros H. unfold handle_call_tool, call_tool. cbn [String.eqb Ascii.eqb Bool.eqb].
    unfold list_tasks. rewrite H. cbn [bind]. rewrite parse_list_tasks_spec. cbn [bind].
    rewrite <- listing_of_records.
    destruct (map task_of_parts _) as [|r rs]; [reflexivity|].
    f_equal. rewrite (fold_left_lines _ task_line).
    + now rewrite ?append_assoc.
    + intros res task. unfold task_line.
      destruct (truthy (task_due_date task)), (truthy (Some (task_notes task)));
        now rewrite ?append_assoc, ?append_empty_r, ?append_empty_l.
  - intros query Hq H. unfold handle_call_tool, call_tool. cbn [String.eqb Ascii.eqb Bool.eqb].
    rewrite Hq. cbn [subscript bind]. unfold search_tasks. rewrite H. cbn [bind].
    unfold parse_search_tasks. rewrite parse_items_spec. cbn [bind].
    rewrite <- listing_of_records.
    destruct (map item_of_parts _) as [|r rs]; [reflexivity|].
    f_equal. rewrite (fold_left_lines _ search_line).
    + now rewrite ?append_assoc.
    + intros res task. unfold search_line. now rewrite ?append_assoc.
  - intros H. unfold handle_call_tool, call_tool. cbn [String.eqb Ascii.eqb Bool.eqb].
    unfold list_projects. rewrite H. cbn [bind].
    unfold parse_list_projects. rewrite parse_items_spec. cbn [bind].
    rewrite <- listing_of_records.
    destruct (map item_of_parts _) as [|r rs]; [reflexivity|].
    f_equal. rewrite (fold_left_lines _ project_line).
    + now rewrite ?append_assoc.
    + intros res task. unfold project_line. now rewrite ?append_assoc.
Qed.

(* ================================================================= *)
(** ** From the request to the reply, for a task that is found *)

Section EndToEnd.

Lemma strip_found_message (reqs : list request) :
  strip (found_message reqs) = found_message reqs.
Proof. destruct reqs as [|r [|r' reqs]]; reflexivity. Qed.

Lemma complete_task_replies_found (x : string) (app : things) (i : nat)
    (reqs : list request) :
  plain x = true ->
  locate x app = Some (i, reqs) ->
  handle_call_tool (osascript_complete_task app) "complete_task" (Some (task_id_only x))
  = reply (found_message reqs).
Proof.
  intros Hp H. unfold handle_call_tool, call_tool. cbn [String.eqb Ascii.eqb Bool.eqb].
  cbn [task_id_only arg_task_id subscript bind]. unfold complete_task.
  rewrite execute_applescript_eq. cbn [osascript_complete_task].
  rewrite (run_complete_task_located x app i reqs Hp H).
  cbn [returncode stdout Z.eqb bind]. now rewrite strip_found_message.
Qed.

Lemma update_task_replies_found (x : string) (a : arguments) (app : things) (i : nat)
    (reqs : list request) :
  arg_task_id a = Some x ->
  all_plain (x :: present (arg_title a) ++ present (arg_notes a) ++ present (arg_due_date a))
  = true ->
  locate x app = Some (i, reqs) ->
  handle_call_tool (osascript_update_task (arg_title a) (arg_notes a) (arg_due_date a) app)
    "update_task" (Some a)
  = reply
      match truthy (arg_due_date a) with
      | None =>
          update_reply (message_if (arg_title a) "Title updated. "
                        ++ message_if (arg_notes a) "Notes updated. ")
      | Some v =>
          match date app v with
          | Some _ =>
              update_reply (message_if (arg_title a) "Title updated. "
                            ++ message_if (arg_notes a) "Notes updated. "
                            ++ "Due date updated. ")
          | None =>
              "Error executing update_task: "
              ++ "Failed to execute AppleScript: AppleScript error: execution error"
          end
      end.
Proof.
  intros Hid Hp H. unfold handle_call_tool, call_tool. cbn [String.eqb Ascii.eqb Bool.eqb].
  rewrite Hid. cbn [subscript bind]. unfold update_task.
  rewrite execute_applescript_eq. cbn [osascript_update_task].
  rewrite (run_update_task_located x _ _ _ (arg_tags a) app i reqs Hp H).
  destruct (truthy (arg_due_date a)) as [v|]; [destruct (date app v)|]; reflexivity.
Qed.

End EndToEnd.

(** X13.  From the request to the reply, when the task is found.  With a
    process that runs the scripts against the application, and an
    identifier without double quote and backslash that a to-do has as its
    id, or else as its name: [complete_task] replies with the message that
    tells which lookup found the task; [update_task] replies with the
    trimmed messages of the changes made, with an error reply when the
    application cannot read the due date, and with the text that the task
    was updated when neither title, notes nor due date is given (so also
    when only tags are given, of which the script makes no use). *)
Theorem found_task_replies (x : string) (app : things) (i : nat) (reqs : list request) :
  plain x = true ->
  locate x app = Some (i, reqs) ->
  handle_call_tool (osascript_complete_task app) "complete_task" (Some (task_id_only x))
  = reply (found_message reqs)
  /\ (forall a,
        arg_task_id a = Some x ->
        all_plain (present (arg_title a) ++ present (arg_notes a) ++ present (arg_due_date a))
        = true ->
        handle_call_tool
          (osascript_update_task (arg_title a) (arg_notes a) (arg_due_date a) app)
          "update_task" (Some a)
        = reply
            match truthy (arg_due_date a) with
            | None =>
                update_reply (message_if (arg_title a) "Title updated. "
                              ++ message_if (arg_notes a) "Notes updated. ")
            | Some v =>
                match date app v with
                | Some _ =>
                    update_reply (message_if (arg_title a) "Title updated. "
                                  ++ message_if (arg_notes a) "Notes updated. "
                                  ++ "Due date updated. ")
                | None =>
                    "Error executing update_task: "
                    ++ "Failed to execute AppleScript: AppleScript error: execution error"
                end
            end)
  /\ (forall a,
        arg_task_id a = Some x ->
        truthy (arg_title a) = None ->
        truthy (arg_notes a) = None ->
        truthy (arg_due_date a) = None ->
        handle_call_tool
          (osascript_update_task (arg_title a) (arg_notes a) (arg_due_date a) app)
          "update_task" (Some a)
        = reply "Task updated successfully").
Proof.
  intros Hp H. split; [|split].
  - now apply (complete_task_replies_found x app i reqs).
  - intros a Hid Ha. apply (update_task_replies_found x a app i reqs Hid); [|exact H].
    unfold all_plain in *. cbn [forallb]. now rewrite Hp, Ha.
  - intros a Hid Ht Hn Hd.
    rewrite (update_task_replies_found x a app i reqs Hid); [|
      unfold all_plain, present; rewrite Ht, Hn, Hd; cbn [List.app forallb];
      now rewrite Hp | exact H ].
    unfold message_if. now rewrite Ht, Hn, Hd.
Qed.

Lemma found_task_replies_witness :
  handle_call_tool
    (osascript_complete_task
       {| to_dos := [ sample_to_do "B2" "A1"; sample_to_do "Call Bob" "B2" ];
          to_dos_of_list := fun _ => []; date := fun _ => None; requests := [] |})
    "complete_task" (Some (task_id_only "A1"))
  = reply "Task completed successfully (found by ID)".
Proof.
  apply (found_task_replies "A1"
           {| to_dos := [ sample_to_do "B2" "A1"; sample_to_do "Call Bob" "B2" ];
              to_dos_of_list := fun _ => []; date := fun _ => None; requests := [] |}
           0 [ ToDoById "A1" ]); reflexivity.
Defined.
